(** * A shallow embedding of [nexrad_utils.py] (AR_Spillover)

    The module locates NEXRAD Level-II volumes in an S3 bucket
    ([get_s3_list_by_str], [get_s3_list]), opens them with Py-ART and
    reduces each to a composite range profile ([get_composite_field]),
    and stacks the profiles into an xarray dataset
    ([get_composite_from_list], [get_composite_from_s3_list]).

    Python exceptions are modelled by the error monad [result]; strings
    are Stdlib [string]s; radar field values are modelled as integers with
    [None] standing for NaN (the masking threshold and the maximum do not
    depend on fractional parts); timestamps are nanoseconds since the epoch
    as pandas stores them. *)

From Stdlib Require Import String Ascii List ZArith Lia Bool Permutation.
Import ListNotations.
Open Scope Z_scope.

(** ** Python exceptions and the error monad *)

Inductive py_error :=
| IndexError
| ValueError
| KeyError
| NameError
| FileNotFoundError
| DecodeError.

Inductive result (A : Type) :=
| Ok (a : A)
| Err (e : py_error).
Arguments Ok {A} a.
Arguments Err {A} e.

Definition bind {A B} (m : result A) (k : A -> result B) : result B :=
  match m with Ok a => k a | Err e => Err e end.

Notation "x <- m ;; k" := (bind m (fun x => k))
  (at level 61, m at next level, right associativity).

Definition is_err {A} (m : result A) : bool :=
  match m with Ok _ => false | Err _ => true end.

(** ** String helpers *)

Local Open Scope string_scope.

(** [str.format] with positional ["{}"] fields: each field takes the next
    argument; too few arguments raise [IndexError]. The inserted
    arguments are not re-scanned. *)
Fixpoint py_format (tmpl : string) (args : list string) : result string :=
  match tmpl with
  | EmptyString => Ok EmptyString
  | String "{" (String "}" rest) =>
      match args with
      | [] => Err IndexError
      | a :: args' => s <- py_format rest args' ;; Ok (a ++ s)
      end
  | String c rest => s <- py_format rest args ;; Ok (String c s)
  end.

(** [strip_prefix p s] is [Some r] when [s = p ++ r]. *)
Fixpoint strip_prefix (p s : string) : option string :=
  match p, s with
  | EmptyString, _ => Some s
  | String a p', String b s' =>
      if Ascii.eqb a b then strip_prefix p' s' else None
  | String _ _, EmptyString => None
  end.

Fixpoint has_slash (s : string) : bool :=
  match s with
  | EmptyString => false
  | String c s' => Ascii.eqb c "/" || has_slash s'
  end.

(** Whether a string holds a ['%'] (a [strftime] directive start). *)
Fixpoint has_pct (s : string) : bool :=
  match s with
  | EmptyString => false
  | String c s' => Ascii.eqb c "%" || has_pct s'
  end.

(** [os.path.basename]: the part after the last ['/']. *)
Fixpoint basename_acc (s acc : string) : string :=
  match s with
  | EmptyString => acc
  | String c s' =>
      if Ascii.eqb c "/" then basename_acc s' "" else basename_acc s' (acc ++ String c "")
  end.
Definition basename (s : string) : string := basename_acc s "".

(** ** The storage backend

    The bucket is a listing of keys. [s3fs.S3FileSystem.glob] on the
    patterns this module builds (a literal prefix followed by one ['*'])
    returns the keys that start with the prefix and whose remainder holds
    no ['/'] (['*'] does not cross a path separator); a pattern without a
    trailing ['*'] matches a key exactly. *)
Definition bucket_store := list string.

Fixpoint strip_trailing_star (s : string) : option string :=
  match s with
  | EmptyString => None
  | String "*" EmptyString => Some EmptyString
  | String c s' =>
      match strip_trailing_star s' with
      | Some p => Some (String c p)
      | None => None
      end
  end.

Definition glob_match (p k : string) : bool :=
  match strip_prefix p k with
  | Some rest => negb (has_slash rest)
  | None => false
  end.

Definition s3_glob (store : bucket_store) (pat : string) : list string :=
  match strip_trailing_star pat with
  | Some p => filter (glob_match p) store
  | None => filter (String.eqb pat) store
  end.

(** ** Locator *)

Definition YMD : string := "%Y/%m/%d/".
Definition S3_FMT : string := "noaa-nexrad-level2/%Y/%m/%d/{}/{}%Y%m%d_%H".
Definition NEX_FMT : string := "{}%Y%m%d_%H%M%S_V06".

(** [get_s3_list_by_str year month day hhmm radar_id bucket]; [None] for
    [hhmm] is Python's [None]. Returns [(key_list, bucket_query)]. *)
Definition get_s3_list_by_str (store : bucket_store)
    (year month day : string) (hhmm : option string) (radar_id bucket : string)
    : result (list string * string) :=
  q <- py_format "{}/{}/{}/{}/{}/{}{}{}{}"
         [bucket; year; month; day; radar_id; radar_id; year; month; day] ;;
  let bucket_query :=
    match hhmm with
    | Some h => q ++ ("_" ++ h)
    | None => q
    end in
  Ok (s3_glob store (bucket_query ++ "*"), bucket_query).

Local Close Scope string_scope.

(** ** Calendar and [strftime]

    A pandas [Timestamp] is an integer count of nanoseconds since
    1970-01-01T00:00. [civil_from_days] is the proleptic Gregorian
    day-to-date conversion. *)

Definition ns_per_sec : Z := 1000000000.
Definition ns_per_day : Z := 86400 * ns_per_sec.
Definition HOUR : Z := 3600 * ns_per_sec.

Record civil := mk_civil {
  c_year : Z; c_month : Z; c_day : Z;
  c_hour : Z; c_minute : Z; c_second : Z }.

Definition civil_from_days (z0 : Z) : Z * Z * Z :=
  let z := z0 + 719468 in
  let era := z / 146097 in
  let doe := z - era * 146097 in
  let yoe := (doe - doe / 1460 + doe / 36524 - doe / 146096) / 365 in
  let y := yoe + era * 400 in
  let doy := doe - (365 * yoe + yoe / 4 - yoe / 100) in
  let mp := (5 * doy + 2) / 153 in
  let d := doy - (153 * mp + 2) / 5 + 1 in
  let m := if mp <? 10 then mp + 3 else mp - 9 in
  (if m <=? 2 then y + 1 else y, m, d).

Definition civil_of_ns (t : Z) : civil :=
  let '(y, m, d) := civil_from_days (t / ns_per_day) in
  let sod := (t mod ns_per_day) / ns_per_sec in
  mk_civil y m d (sod / 3600) ((sod mod 3600) / 60) (sod mod 60).

Definition digit_char (d : Z) : ascii := ascii_of_nat (48 + Z.to_nat d).

Fixpoint dec_digits (fuel : nat) (n : Z) (acc : string) : string :=
  match fuel with
  | O => acc
  | S f =>
      let acc' := String (digit_char (n mod 10)) acc in
      if n <? 10 then acc' else dec_digits f (n / 10) acc'
  end.

Fixpoint zeros (n : nat) : string :=
  match n with O => EmptyString | S n' => String "0" (zeros n') end.

(** Decimal rendering of a non-negative number, zero padded to width [w]. *)
Definition zpad (w : nat) (n : Z) : string :=
  let s := dec_digits 20 n EmptyString in
  (zeros (w - String.length s) ++ s)%string.

(** [Timestamp.strftime] for the directives the module uses. *)
Fixpoint strftime (fmt : string) (t : Z) : string :=
  let c := civil_of_ns t in
  match fmt with
  | EmptyString => EmptyString
  | String "%" (String d rest) =>
      let r := strftime rest t in
      if Ascii.eqb d "Y" then (zpad 4 (c_year c) ++ r)%string
      else if Ascii.eqb d "m" then (zpad 2 (c_month c) ++ r)%string
      else if Ascii.eqb d "d" then (zpad 2 (c_day c) ++ r)%string
      else if Ascii.eqb d "H" then (zpad 2 (c_hour c) ++ r)%string
      else if Ascii.eqb d "M" then (zpad 2 (c_minute c) ++ r)%string
      else if Ascii.eqb d "S" then (zpad 2 (c_second c) ++ r)%string
      else if Ascii.eqb d "%" then String "%" r
      else String "%" (String d r)
  | String ch rest => String ch (strftime rest t)
  end.

(** ** [pd.date_range(start, end, freq='H')]

    For a fixed-size frequency pandas computes the points with
    [generate_regular_range]: an end bound [e] from the floor division of
    the span by the stride, then [np.arange(b, e, stride)]. *)

Definition arange (b e step : Z) : list Z :=
  let n := Z.max 0 ((e - b + step - 1) / step) in
  map (fun k => b + Z.of_nat k * step) (seq 0 (Z.to_nat n)).

Definition generate_regular_range (b iend stride : Z) : list Z :=
  let e := b + (iend - b) / stride * stride + stride / 2 + 1 in
  arange b e stride.

Definition date_range_hourly (start end_ : Z) : list Z :=
  generate_regular_range start end_ HOUR.

(** [get_s3_list start end radar_id bucket]. The [bucket] argument is not
    used by the source. Besides [key_list] the model returns the glob
    patterns issued to the backend, in order. *)
Definition get_s3_list (store : bucket_store) (start end_ : Z)
    (radar_id bucket : string) : result (list string * list string) :=
  bucket_query <- py_format S3_FMT [radar_id; radar_id] ;;
  let dt_range := date_range_hourly start end_ in
  Ok (fold_left
        (fun '(queries, key_list) timeh =>
           let q := (strftime bucket_query timeh ++ "*")%string in
           (queries ++ [q], key_list ++ s3_glob store q))
        dt_range ([], [])).

(** ** [pd.to_datetime(name, format=fmt)]

    pandas compiles the format with the regular expressions of Python's
    [_strptime.TimeRE] (case-insensitive), takes [re.match] (the first
    match in the regex's backtracking order), fails with "unconverted data
    remains" unless the match spans the whole string, and then checks the
    date with [datetime.date(year, month, day)]; the fields are then
    converted to a nanosecond count. *)

Definition chr_in (lo hi : ascii) (c : ascii) : bool :=
  (nat_of_ascii lo <=? nat_of_ascii c)%nat && (nat_of_ascii c <=? nat_of_ascii hi)%nat.
Definition D : ascii -> bool := chr_in "0" "9".

(** The alternatives of each directive's regex, in order. *)
Definition directive_regex (d : ascii) : list (list (ascii -> bool)) :=
  if Ascii.eqb d "Y" then [[D; D; D; D]]
  else if Ascii.eqb d "m" then
    [[chr_in "1" "1"; chr_in "0" "2"]; [chr_in "0" "0"; chr_in "1" "9"]; [chr_in "1" "9"]]
  else if Ascii.eqb d "d" then
    [[chr_in "3" "3"; chr_in "0" "1"]; [chr_in "1" "2"; D];
     [chr_in "0" "0"; chr_in "1" "9"]; [chr_in "1" "9"]; [chr_in " " " "; chr_in "1" "9"]]
  else if Ascii.eqb d "H" then
    [[chr_in "2" "2"; chr_in "0" "3"]; [chr_in "0" "1"; D]; [D]]
  else if Ascii.eqb d "M" then [[chr_in "0" "5"; D]; [D]]
  else if Ascii.eqb d "S" then
    [[chr_in "6" "6"; chr_in "0" "1"]; [chr_in "0" "5"; D]; [D]]
  else [].

(** Matches a sequence of character classes; returns the matched text and
    the rest. *)
Fixpoint match_classes (pat : list (ascii -> bool)) (s : string)
    : option (string * string) :=
  match pat with
  | [] => Some (EmptyString, s)
  | p :: pat' =>
      match s with
      | EmptyString => None
      | String c s' =>
          if p c then
            match match_classes pat' s' with
            | Some (m, r) => Some (String c m, r)
            | None => None
            end
          else None
      end
  end.

(** [int()] of the matched digits (a leading blank is ignored). *)
Fixpoint digits_value (s : string) (acc : Z) : Z :=
  match s with
  | EmptyString => acc
  | String c s' =>
      if D c then digits_value s' (acc * 10 + Z.of_nat (nat_of_ascii c - 48))
      else digits_value s' acc
  end.

Definition directive_alts (d : ascii) (s : string) : list (Z * string) :=
  flat_map (fun pat =>
              match match_classes pat s with
              | Some (m, r) => [(digits_value m 0, r)]
              | None => []
              end) (directive_regex d).

Definition set_field (d : ascii) (v : Z) (c : civil) : civil :=
  let '(mk_civil y mo dd h mi se) := c in
  if Ascii.eqb d "Y" then mk_civil v mo dd h mi se
  else if Ascii.eqb d "m" then mk_civil y v dd h mi se
  else if Ascii.eqb d "d" then mk_civil y mo v h mi se
  else if Ascii.eqb d "H" then mk_civil y mo dd v mi se
  else if Ascii.eqb d "M" then mk_civil y mo dd h v se
  else if Ascii.eqb d "S" then mk_civil y mo dd h mi v
  else c.

(** ASCII case folding, as [re.IGNORECASE] does on these characters. *)
Definition lower (c : ascii) : ascii :=
  if chr_in "A" "Z" c then ascii_of_nat (nat_of_ascii c + 32) else c.

(** All matches of the compiled format at the start of [s], in the order
    in which the regex engine tries them. *)
Fixpoint strp_matches (fmt s : string) (acc : civil) : list (civil * string) :=
  match fmt with
  | EmptyString => [(acc, s)]
  | String "%" (String d rest) =>
      flat_map (fun '(v, s') => strp_matches rest s' (set_field d v acc))
               (directive_alts d s)
  | String c rest =>
      match s with
      | String c' s' =>
          if Ascii.eqb (lower c) (lower c') then strp_matches rest s' acc else []
      | EmptyString => []
      end
  end.

Definition is_leap (y : Z) : bool :=
  ((y mod 4 =? 0) && negb (y mod 100 =? 0)) || (y mod 400 =? 0).

Definition days_in_month (y m : Z) : Z :=
  if m =? 2 then (if is_leap y then 29 else 28)
  else if (m =? 4) || (m =? 6) || (m =? 9) || (m =? 11) then 30
  else 31.

Definition strp_default : civil := mk_civil 1900 1 1 0 0 0.

(** A pandas [Timestamp] (nanoseconds since 1970-01-01T00:00) or [NaT]. *)
Inductive timestamp :=
| Timestamp (ns : Z)
| NaT.

(** Days since 1970-01-01 of a proleptic Gregorian date, the inverse of
    [civil_from_days]. *)
Definition days_from_civil (y m d : Z) : Z :=
  let y := if m <=? 2 then y - 1 else y in
  let era := y / 400 in
  let yoe := y - era * 400 in
  let mp := if 2 <? m then m - 3 else m + 9 in
  let doy := (153 * mp + 2) / 5 + d - 1 in
  let doe := yoe * 365 + yoe / 4 - yoe / 100 + doy in
  era * 146097 + doe - 719468.

(** [npy_datetimestruct_to_datetime]: the fields are added up as they are,
    so a second of 60 or 61 carries into the next minute. *)
Definition ns_of_civil (c : civil) : Z :=
  ((days_from_civil (c_year c) (c_month c) (c_day c) * 86400
    + c_hour c * 3600 + c_minute c * 60 + c_second c) * ns_per_sec).

(** The nanosecond range of [Timestamp] ([Timestamp.min], [Timestamp.max]). *)
Definition ns_min : Z := -9223372036854775807.
Definition ns_max : Z := 9223372036854775807.

(** The strings that [array_strptime] turns into [NaT] without parsing. *)
Definition nat_strings : list string :=
  ["NaT"; "nat"; "NAT"; "nan"; "NaN"; "NAN"]%string.

(** An empty string or one of [nat_strings] is [NaT]. Otherwise the first
    match must span the string, the date must exist, and the timestamp
    must lie within the nanosecond range ([OutOfBoundsDatetime], a
    subclass of [ValueError], otherwise). *)
Definition to_datetime (s fmt : string) : result timestamp :=
  if String.eqb s EmptyString || existsb (String.eqb s) nat_strings then Ok NaT
  else
  match strp_matches fmt s strp_default with
  | [] => Err ValueError
  | (c, rest) :: _ =>
      match rest with
      | EmptyString =>
          if (1 <=? c_year c) && (c_year c <=? 9999)
             && (1 <=? c_day c) && (c_day c <=? days_in_month (c_year c) (c_month c))
          then
            let t := ns_of_civil c in
            if (ns_min <=? t) && (t <=? ns_max) then Ok (Timestamp t)
            else Err ValueError
          else Err ValueError
      | String _ _ => Err ValueError
      end
  end.

(** The timestamp of a key: [os.path.basename] of the last path
    component, parsed with [NEX_FMT.format(radar_id)]. *)
Definition key_time (radar_id filen : string) : result timestamp :=
  fmt <- py_format NEX_FMT [radar_id] ;;
  to_datetime (basename (basename filen)) fmt.

(** ** Radar volumes (Py-ART)

    A decoded volume as the module uses it: the azimuth of every ray, the
    [(start, end)] ray slice of every sweep, every field as a
    rays-by-gates array, and the gate ranges ([radar.range['data']]).
    A cell is a float value, [None] for NaN. *)

Definition cell := option Z.

Record radar := mk_radar {
  radar_azimuths : list Z;
  radar_sweeps : list (nat * nat);
  radar_fields : list (string * list (list cell));
  radar_ranges : list Z }.

Fixpoint assoc_lookup {A} (k : string) (l : list (string * A)) : option A :=
  match l with
  | [] => None
  | (k', v) :: l' => if String.eqb k k' then Some v else assoc_lookup k l'
  end.

(** [np.argmin]: index of the first smallest element; an empty array
    raises [ValueError]. *)
Fixpoint argmin_from (l : list Z) (i best : nat) (bv : Z) : nat :=
  match l with
  | [] => best
  | x :: l' => if x <? bv then argmin_from l' (S i) i x else argmin_from l' (S i) best bv
  end.

Definition argmin (l : list Z) : result nat :=
  match l with
  | [] => Err ValueError
  | x :: l' => Ok (argmin_from l' 1 0 x)
  end.

Fixpoint map_result {A B} (f : A -> result B) (l : list A) : result (list B) :=
  match l with
  | [] => Ok []
  | x :: l' => y <- f x ;; ys <- map_result f l' ;; Ok (y :: ys)
  end.

(** [_interpolate_range_edges], [_interpolate_elevation_edges] and
    [_interpolate_azimuth_edges] of Py-ART index the first two and the
    last two entries of their argument ([x[0]], [x[1]], [x[-1]],
    [x[-2]]): an array of fewer than two entries raises [IndexError].
    Only whether they raise matters to the module. *)
Definition interpolate_edges (n : nat) : result unit :=
  if (n <? 2)%nat then Err IndexError else Ok tt.

(** [antenna_vectors_to_cartesian(ranges, azimuths, elevations,
    edges=True)] as far as it can raise: the range edges are always
    interpolated; the elevation and azimuth edges only when the
    pseudo-RHI has a number of rays other than one. The coordinates
    themselves are not used by the module. *)
Definition antenna_vectors_edges (nranges nrays : nat) : result unit :=
  _ <- interpolate_edges nranges ;;
  _ <- (if (nrays =? 1)%nat then Ok tt else interpolate_edges nrays) ;;
  if (nrays =? 1)%nat then Ok tt else interpolate_edges nrays.

(** [data[k]] for a row index [k] of a rays-by-gates array. *)
Definition row_at (data : list (list cell)) (k : nat) : result (list cell) :=
  match nth_error data k with
  | Some row => Ok row
  | None => Err IndexError
  end.

(** [RadarDisplay._get_azimuth_rhi_data_x_y_z(field, target_azimuth,
    True, None, True, None)] of Py-ART: the field's data ([KeyError] when
    the radar has no such field); for every sweep the index of the ray
    whose azimuth is nearest the target
    ([np.argmin(np.abs(sweep_azimuths - target_azimuth))] plus the sweep
    start); then [data[prhi_rays]] and the edge coordinates of the
    pseudo-RHI. Only the data array is used by the module. *)
Definition azimuth_rhi_data (r : radar) (field : string) (target : Z)
    : result (list (list cell)) :=
  match assoc_lookup field (radar_fields r) with
  | None => Err KeyError
  | Some data =>
      prhi_rays <- map_result
        (fun '(s, e) =>
           let sweep_az := firstn (e - s) (skipn s (radar_azimuths r)) in
           i <- argmin (map (fun a => Z.abs (a - target)) sweep_az) ;;
           Ok (s + i)%nat)
        (radar_sweeps r) ;;
      rows <- map_result (row_at data) prhi_rays ;;
      _ <- antenna_vectors_edges (length (radar_ranges r)) (length prhi_rays) ;;
      Ok rows
  end.

(** [ray[np.logical_or(ray > 1000., ray < -1000.)] = np.nan] on one cell:
    comparisons with NaN are false. *)
Definition mask_saturated (v : cell) : cell :=
  match v with
  | Some x => if (1000 <? x) || (x <? -1000) then None else Some x
  | None => None
  end.

(** [np.fmax] on two cells: NaN is ignored unless both are NaN. *)
Definition nan_max2 (a b : cell) : cell :=
  match a, b with
  | Some x, Some y => Some (Z.max x y)
  | Some x, None => Some x
  | None, b => b
  end.

Fixpoint zip_with {A} (f : A -> A -> A) (l1 l2 : list A) : list A :=
  match l1, l2 with
  | x :: l1', y :: l2' => f x y :: zip_with f l1' l2'
  | _, _ => []
  end.

(** [np.nanmax(ray, axis=0)]: the column-wise maximum ignoring NaN; a
    reduction over zero rows raises [ValueError]. *)
Definition nanmax_axis0 (rows : list (list cell)) : result (list cell) :=
  match rows with
  | [] => Err ValueError
  | r :: rs => Ok (fold_left (zip_with nan_max2) rs r)
  end.

(** [get_composite_field(radar, field, azimuth)]. *)
Definition get_composite_field (r : radar) (field : string) (azimuth : Z)
    : result (list cell * list Z) :=
  ray <- azimuth_rhi_data r "reflectivity"%string azimuth ;;
  let ray := map (map mask_saturated) ray in
  raycomp <- nanmax_axis0 ray ;;
  Ok (raycomp, radar_ranges r).

(** ** Building the time series *)

(** A stored object: a volume Py-ART decodes, or a corrupted file on
    which [pyart.io.read] raises. *)
Inductive vfile :=
| Volume (r : radar)
| Corrupt.

(** Local paths and S3 keys resolve to stored objects; [None]: no such
    file or object. *)
Definition file_system := string -> option vfile.

(** [pyart.io.read]. *)
Definition pyart_read (f : vfile) : result radar :=
  match f with
  | Volume r => Ok r
  | Corrupt => Err DecodeError
  end.

Definition read_path (fs : file_system) (p : string) : result radar :=
  match fs p with
  | Some f => pyart_read f
  | None => Err FileNotFoundError
  end.

(** The lists [times], [rays] and [ranges] accumulated by the loops. *)
Record accum := mk_accum {
  acc_times : list timestamp;
  acc_rays : list (list cell);
  acc_ranges : list (list Z) }.

Definition accum0 : accum := mk_accum [] [] [].

Definition push_time (t : timestamp) (st : accum) : accum :=
  mk_accum (acc_times st ++ [t]) (acc_rays st) (acc_ranges st).

Definition push_ray (ray : list cell) (rng : list Z) (st : accum) : accum :=
  mk_accum (acc_times st) (acc_rays st ++ [ray]) (acc_ranges st ++ [rng]).

Fixpoint fold_result {A B} (f : A -> B -> result A) (l : list B) (a : A)
    : result A :=
  match l with
  | [] => Ok a
  | x :: l' => a' <- f a x ;; fold_result f l' a'
  end.

Record dataset := mk_dataset {
  ds_time : list timestamp;
  ds_range : list Z;
  ds_ref : list (list cell) }.

(** [np.vstack(rays)]: no arrays, or arrays of different lengths, raise
    [ValueError]. *)
Definition vstack (rows : list (list cell)) : result (list (list cell)) :=
  match rows with
  | [] => Err ValueError
  | r :: _ =>
      if forallb (fun x => Nat.eqb (length x) (length r)) rows then Ok rows
      else Err ValueError
  end.

(** [ds['time'] = times; ds['range'] = ranges[0];
     ds['ref'] = ('time', 'range'), np.vstack(rays)]: [ranges[0]] raises
    [IndexError] on an empty list, and xarray raises [ValueError] when the
    stacked array's shape conflicts with the [time] and [range] sizes. *)
Definition build_dataset (st : accum) : result dataset :=
  rng0 <- match acc_ranges st with
          | [] => Err IndexError
          | r :: _ => Ok r
          end ;;
  ref <- vstack (acc_rays st) ;;
  let width := match ref with [] => O | r :: _ => length r end in
  if Nat.eqb (length (acc_times st)) (length ref) && Nat.eqb width (length rng0)
  then Ok (mk_dataset (acc_times st) rng0 ref)
  else Err ValueError.

Section BuildTimeSeries.
Variable fs : file_system.
Variables (radar_id field : string) (azimuth : Z).

(** One iteration of [get_composite_from_list]: no error handling. *)
Definition local_step (st : accum) (filen : string) : result accum :=
  t <- key_time radar_id filen ;;
  let st := push_time t st in
  r <- read_path fs filen ;;
  c <- get_composite_field r field azimuth ;;
  Ok (push_ray (fst c) (snd c) st).

Definition get_composite_from_list (file_list : list string)
    : result dataset :=
  st <- fold_result local_step file_list accum0 ;;
  build_dataset st.

(** One iteration of [get_composite_from_s3_list]: [s3conn.open] is
    outside the [try]; reading, the timestamp parse and the extraction
    are inside it, and an exception there leaves the lists as they are
    at that point. *)
Definition s3_try_body (f : vfile) (filen : string) (st : accum) : accum :=
  match pyart_read f with
  | Err _ => st
  | Ok r =>
      match key_time radar_id filen with
      | Err _ => st
      | Ok t =>
          let st := push_time t st in
          match get_composite_field r field azimuth with
          | Err _ => st
          | Ok (ray, rng) => push_ray ray rng st
          end
      end
  end.

Definition s3_step (st : accum) (filen : string) : result accum :=
  match fs filen with
  | None => Err FileNotFoundError
  | Some f => Ok (s3_try_body f filen st)
  end.

Definition get_composite_from_s3_list (file_list : list string)
    : result dataset :=
  st <- fold_result s3_step file_list accum0 ;;
  build_dataset st.
End BuildTimeSeries.

(** ** Opening a local file: [open_nexrad_file]

    A local file is stored gzip-compressed or plain. [os.system('gzip f')]
    replaces [f] by [f.gz], compressed; it reports failure through its
    exit status only. *)
Inductive disk_file :=
| Gzipped (f : vfile)
| Plain (f : vfile).

Definition disk := list (string * disk_file).

Fixpoint disk_remove (p : string) (d : disk) : disk :=
  match d with
  | [] => []
  | (q, x) :: d' => if String.eqb p q then disk_remove p d' else (q, x) :: disk_remove p d'
  end.

Definition shell_gzip (p : string) (d : disk) : disk :=
  match assoc_lookup p d with
  | Some (Plain f) => (String.append p ".gz", Gzipped f) :: disk_remove p d
  | _ => d
  end.

(** [pyart.aux_io.read_radx] and [pyart.io.read_nexrad_archive] on a
    path; a compressed file is not decoded by the model. *)
Definition disk_read (d : disk) (p : string) : result radar :=
  match assoc_lookup p d with
  | Some (Plain f) => pyart_read f
  | Some (Gzipped _) => Err DecodeError
  | None => Err FileNotFoundError
  end.

(** The names bound at module level in [nexrad_utils.py]: its imports,
    constants and functions, in source order. *)
Definition module_globals : list string :=
  ["os"; "warnings"; "np"; "pd"; "xr"; "tempfile"; "s3fs"; "dt"; "plt";
   "pyart"; "YMD"; "KEY_START"; "S3_FMT"; "NEX_FMT"; "get_s3_list_by_str";
   "get_s3_list"; "open_nexrad_file"; "open_nexrad_from_s3";
   "get_composite_field"; "get_composite_from_list";
   "get_composite_from_s3_list"]%string.

(** Python's [builtins] namespace, consulted after the module globals. *)
Definition python_builtins : list string :=
  ["abs"; "all"; "any"; "bool"; "dict"; "enumerate"; "float"; "getattr";
   "int"; "isinstance"; "len"; "list"; "map"; "max"; "min"; "open"; "print";
   "range"; "set"; "sorted"; "str"; "sum"; "tuple"; "type"; "zip";
   "Exception"; "ValueError"; "NameError"; "KeyError"; "IndexError"]%string.

(** Name resolution of a global name inside a function of the module. *)
Definition name_bound (n : string) : bool :=
  existsb (String.eqb n) (module_globals ++ python_builtins).

(** [open_nexrad_file(filename, io)]. Its first statement calls
    [try_file_gunzip]; [gunzip_impl] is what that call would do if the
    name were bound: return the path to read, whether it decompressed,
    and the disk afterwards. *)
Definition open_nexrad_file
    (gunzip_impl : string -> disk -> result (string * bool * disk))
    (d : disk) (filename io : string) : result (radar * disk) :=
  if negb (name_bound "try_file_gunzip"%string) then Err NameError
  else
    x <- gunzip_impl filename d ;;
    let '(fname, zipped, d1) := x in
    r <- disk_read d1 fname ;;
    Ok (r, if zipped then shell_gzip fname d1 else d1).

(** [open_nexrad_from_s3(s3key, io)]: [s3fs.get(s3key, temp88d)] copies
    the object into the temporary file [temp88d] (or raises; [s3fs_get]
    is what that call does to the disk), then the file object is passed to
    [open_nexrad_file]. [os.path.split] has no effect. *)
Definition open_nexrad_from_s3
    (s3fs_get : string -> string -> disk -> result disk)
    (gunzip_impl : string -> disk -> result (string * bool * disk))
    (d : disk) (temp88d s3key io : string) : result (radar * disk) :=
  d1 <- s3fs_get s3key temp88d d ;;
  open_nexrad_file gunzip_impl d1 temp88d io.

(** Key [k] parses, decodes and extracts, giving the timestamp [tm k],
    the profile [pr k] and the range axis [rg k]. *)
Definition key_succeeds (fs : file_system) (radar_id field : string) (azimuth : Z)
    (tm : string -> timestamp) (pr : string -> list cell) (rg : string -> list Z)
    (k : string) : Prop :=
  exists r, fs k = Some (Volume r) /\ key_time radar_id k = Ok (tm k) /\
            get_composite_field r field azimuth = Ok (pr k, rg k).

(** ** Example inputs *)

Local Open Scope string_scope.

(** One sweep of two rays; the ray at azimuth 235 carries saturated and
    boundary values. *)
Definition radar_a : radar :=
  mk_radar [0; 235] [(0, 2)%nat]
    [("reflectivity", [[Some 7; Some 7; Some 7; Some 7];
                       [Some 1000; Some (-1000); Some 1001; Some 5]]);
     ("velocity", [[Some 1; Some 1; Some 1; Some 1];
                   [Some (-3); Some 4; Some (-5); Some 6]])]
    [0; 250; 500; 750].

(** Two sweeps of one ray each, three gates. *)
Definition radar_b : radar :=
  mk_radar [230; 240] [(0, 1); (1, 2)]%nat
    [("reflectivity", [[Some 10; None; Some 2000]; [Some 20; Some 5; None]])]
    [0; 250; 500].

Definition key_a1 := "noaa-nexrad-level2/2020/06/15/KATX/KATX20200615_000536_V06".
Definition key_a2 := "noaa-nexrad-level2/2020/06/15/KATX/KATX20200615_001012_V06".
Definition key_a3 := "noaa-nexrad-level2/2020/06/15/KATX/KATX20200615_001448_V06".
Definition key_b := "noaa-nexrad-level2/2020/06/15/KATX/KATX20200615_002000_V06".
Definition key_bad := "noaa-nexrad-level2/2020/06/15/KATX/KATX_latest".
Definition key_mdm := "noaa-nexrad-level2/2020/06/15/KATX/KATX20200615_000536_V06_MDM".

Definition fs_example : file_system := fun k =>
  if String.eqb k key_a1 then Some (Volume radar_a)
  else if String.eqb k key_a2 then Some Corrupt
  else if String.eqb k key_a3 then Some (Volume radar_a)
  else if String.eqb k key_b then Some (Volume radar_b)
  else if String.eqb k key_bad then Some (Volume radar_a)
  else None.

Definition store_example : bucket_store := [key_a1; key_a2; key_a3; key_mdm].

(** Per-key timestamp, profile and range axis of [fs_example]. *)
Definition tm_example (k : string) : timestamp :=
  match key_time "KATX" k with Ok t => t | Err _ => NaT end.

Definition comp_example (k : string) : list cell * list Z :=
  match fs_example k with
  | Some (Volume r) =>
      match get_composite_field r "reflectivity" 235 with
      | Ok c => c
      | Err _ => ([], [])
      end
  | _ => ([], [])
  end.

Definition pr_example (k : string) : list cell := fst (comp_example k).
Definition rg_example (k : string) : list Z := snd (comp_example k).
Definition succ_example (k : string) : bool := negb (String.eqb k key_a2).


(** A volume without a reflectivity field. *)
Definition radar_noref : radar :=
  mk_radar [0; 235] [(0, 2)%nat]
    [("velocity", [[Some 1; Some 1]; [Some 2; Some 2]])]
    [0; 250].

(** [fs_example] with [key_a3] holding [radar_noref]. *)
Definition fs_noref : file_system := fun k =>
  if String.eqb k key_a3 then Some (Volume radar_noref) else fs_example k.

Local Close Scope string_scope.

(** The timestamps in [st] outnumber the profiles by at least [n]. *)
Definition time_gap (n : nat) (st : accum) : Prop :=
  (length (acc_rays st) + n <= length (acc_times st))%nat.

(** The common prefix of the keys of station KATX on 2020-06-15. *)
Definition day_prefix : string := "noaa-nexrad-level2/2020/06/15/KATX/KATX20200615".


(** * Properties *)

Local Open Scope string_scope.

Lemma str_app_assoc (a b c : string) : (a ++ b) ++ c = a ++ (b ++ c).
Proof. induction a as [|x a IH]; simpl; [reflexivity | now rewrite IH]. Qed.

Lemma str_app_nil_r (a : string) : a ++ "" = a.
Proof. induction a as [|x a IH]; simpl; [reflexivity | now rewrite IH]. Qed.

(** ** Locator *)

(** C5: [get_s3_list_by_str] builds the query
    [bucket/year/month/day/station/station year month day], followed by
    ["_" ++ hhmm] exactly when [hhmm] is given, and globs [query ++ "*"]. *)
Theorem get_s3_list_by_str_query :
  forall store year month day hhmm radar_id bucket,
    let prefix :=
      bucket ++ "/" ++ year ++ "/" ++ month ++ "/" ++ day ++ "/" ++ radar_id
      ++ "/" ++ radar_id ++ year ++ month ++ day
      ++ match hhmm with Some h => "_" ++ h | None => "" end in
    get_s3_list_by_str store year month day hhmm radar_id bucket
    = Ok (s3_glob store (prefix ++ "*"), prefix).
Proof.
  intros store year month day hhmm radar_id bucket prefix.
  unfold prefix, get_s3_list_by_str; simpl.
  destruct hhmm as [h|]; repeat (simpl; rewrite ?str_app_assoc);
    rewrite ?str_app_nil_r; reflexivity.
Qed.

Local Close Scope string_scope.

(** ** Composite extraction *)






Lemma mask_saturated_some (v : cell) m :
  mask_saturated v = Some m <-> v = Some m /\ -1000 <= m <= 1000.
Proof.
  destruct v as [x|]; simpl.
  - destruct (1000 <? x) eqn:E1, (x <? -1000) eqn:E2; simpl;
      rewrite ?Z.ltb_lt, ?Z.ltb_ge in E1, E2.
    all: split; [intros H | intros [H Hb]]; try discriminate.
    all: injection H as <-; try lia.
    all: first [reflexivity | split; [reflexivity | lia]].
  - split; [discriminate | intros [H _]; discriminate].
Qed.


Lemma map_result_length {A B} (f : A -> result B) l ys :
  map_result f l = Ok ys -> length ys = length l.
Proof.
  revert ys; induction l as [|x l IH]; intros ys; simpl.
  - intros H; injection H as <-; reflexivity.
  - destruct (f x); cbn [bind]; [|discriminate].
    destruct (map_result f l) as [zs|] eqn:E; cbn [bind]; [|discriminate].
    intros H; injection H as <-; simpl; rewrite (IH zs eq_refl); reflexivity.
Qed.

(** The pseudo-RHI extraction succeeds only on a volume with at least one
    sweep and at least two range gates; it yields one row per sweep. *)
Lemma azimuth_rhi_data_ok r field az rows :
  azimuth_rhi_data r field az = Ok rows ->
  (2 <= length (radar_ranges r))%nat /\ radar_sweeps r <> [] /\
  length rows = length (radar_sweeps r).
Proof.
  unfold azimuth_rhi_data; destruct (assoc_lookup field (radar_fields r)); [|discriminate].
  match goal with |- context [map_result ?f (radar_sweeps r)] =>
    destruct (map_result f (radar_sweeps r)) as [p|] eqn:Ep; cbn [bind]; [|discriminate]
  end.
  destruct (map_result (row_at l) p) as [rows'|] eqn:Er; cbn [bind]; [|discriminate].
  unfold antenna_vectors_edges, interpolate_edges.
  destruct (length (radar_ranges r) <? 2)%nat eqn:E1; cbn [bind]; [discriminate|].
  apply Nat.ltb_ge in E1.
  apply map_result_length in Ep; apply map_result_length in Er.
  destruct (length p =? 1)%nat eqn:E2; cbn [bind].
  - intros H; injection H as <-; apply Nat.eqb_eq in E2.
    repeat split; [lia | intros Hs; rewrite Hs in Ep; simpl in Ep; lia | lia].
  - destruct (length p <? 2)%nat eqn:E3; cbn [bind]; [discriminate|].
    apply Nat.ltb_ge in E3.
    intros H; injection H as <-.
    repeat split; [lia | intros Hs; rewrite Hs in Ep; simpl in Ep; lia | lia].
Qed.



(** C2: [get_composite_field] reads the ["reflectivity"] field whatever
    its [field] argument: asked for ["velocity"] of [radar_a] it returns
    the reflectivity composite, not the velocity values of the ray. *)
Theorem get_composite_field_ignores_field :
  get_composite_field radar_a "velocity" 235
    = get_composite_field radar_a "reflectivity" 235 /\
  get_composite_field radar_a "velocity" 235
    = Ok ([Some 1000; Some (-1000); None; Some 5], [0; 250; 500; 750]) /\
  azimuth_rhi_data radar_a "velocity" 235
    = Ok [[Some (-3); Some 4; Some (-5); Some 6]].
Proof. split; [reflexivity | split; vm_compute; reflexivity]. Qed.

(** ** Hourly listing *)

Lemma py_format_S3_FMT (radar_id : string) :
  py_format S3_FMT [radar_id; radar_id]
  = Ok ("noaa-nexrad-level2/%Y/%m/%d/" ++ radar_id ++ "/" ++ radar_id
        ++ "%Y%m%d_%H")%string.
Proof. reflexivity. Qed.

Lemma date_range_hourly_points start end_ :
  start <= end_ ->
  date_range_hourly start end_
  = map (fun k => start + Z.of_nat k * HOUR)
        (seq 0 (S (Z.to_nat ((end_ - start) / HOUR)))).
Proof.
  intros Hle; unfold date_range_hourly, generate_regular_range, arange.
  f_equal; f_equal.
  assert (Hq : 0 <= (end_ - start) / HOUR)
    by (apply Z.div_pos; unfold HOUR, ns_per_sec; lia).
  set (q := (end_ - start) / HOUR) in *.
  replace (start + q * HOUR + HOUR / 2 + 1 - start + HOUR - 1)
    with ((q + 1) * HOUR + HOUR / 2) by ring.
  rewrite Z.div_add_l by (unfold HOUR, ns_per_sec; lia).
  rewrite (Z.div_small (HOUR / 2) HOUR) by (split; vm_compute; congruence).
  rewrite Z.add_0_r, Z.max_r by lia.
  rewrite Z2Nat.inj_add by lia; simpl; lia.
Qed.

Lemma nth_map_lt {A B} (f : A -> B) (l : list A) (d : B) (a : A) k :
  (k < length l)%nat -> nth k (map f l) d = f (nth k l a).
Proof.
  revert k; induction l as [|x l IH]; intros [|k] Hk; simpl in *; try lia;
    [reflexivity | apply IH; lia].
Qed.

Lemma fold_queries (store : bucket_store) (g : Z -> string) :
  forall l qs ks,
    fold_left (fun '(queries, key_list) timeh =>
                 (queries ++ [g timeh], key_list ++ s3_glob store (g timeh)))
              l (qs, ks)
    = (qs ++ map g l, ks ++ concat (map (s3_glob store) (map g l))).
Proof.
  induction l as [|t l IH]; intros qs ks; simpl.
  - rewrite !app_nil_r; reflexivity.
  - rewrite IH, <- !app_assoc; reflexivity.
Qed.

(** C6: for [start <= end], [get_s3_list] issues
    [floor((end - start) / 1 hour) + 1] glob queries; the [k]-th is the
    template ["noaa-nexrad-level2/%Y/%m/%d/{station}/{station}%Y%m%d_%H"]
    rendered at [start + k] hours followed by ["*"]; the keys are the
    results of the queries concatenated in that order. *)
Theorem get_s3_list_hourly_queries :
  forall store start end_ radar_id bucket,
    start <= end_ ->
    exists queries key_list,
      get_s3_list store start end_ radar_id bucket = Ok (queries, key_list) /\
      length queries = S (Z.to_nat ((end_ - start) / HOUR)) /\
      (forall k, (k < length queries)%nat ->
         nth k queries ""%string
         = (strftime ("noaa-nexrad-level2/%Y/%m/%d/" ++ radar_id ++ "/"
                      ++ radar_id ++ "%Y%m%d_%H") (start + Z.of_nat k * HOUR)
            ++ "*")%string) /\
      key_list = concat (map (s3_glob store) queries).
Proof.
  intros store start end_ radar_id bucket Hle.
  unfold get_s3_list; rewrite py_format_S3_FMT; simpl.
  rewrite date_range_hourly_points by exact Hle.
  rewrite fold_queries; cbn [app].
  do 2 eexists; split; [reflexivity|].
  rewrite !length_map, length_seq; split; [reflexivity|]; split.
  - intros k Hk.
    rewrite map_map.
    rewrite (nth_map_lt _ _ _ 0%nat) by (rewrite length_seq; exact Hk).
    rewrite seq_nth by exact Hk; reflexivity.
  - rewrite map_map; reflexivity.
Qed.

(** Witness for [get_s3_list_hourly_queries]: 2020-06-15 12:30 to 15:00. *)
Lemma get_s3_list_hourly_queries_witness :
  1592224200 * ns_per_sec <= 1592229600 * ns_per_sec /\
  exists queries key_list,
    get_s3_list store_example (1592224200 * ns_per_sec) (1592229600 * ns_per_sec)
      "KATX" "noaa-nexrad-level2" = Ok (queries, key_list) /\
    length queries
      = S (Z.to_nat ((1592229600 * ns_per_sec - 1592224200 * ns_per_sec) / HOUR)) /\
    (forall k, (k < length queries)%nat ->
       nth k queries ""%string
       = (strftime ("noaa-nexrad-level2/%Y/%m/%d/" ++ "KATX" ++ "/"
                    ++ "KATX" ++ "%Y%m%d_%H") (1592224200 * ns_per_sec + Z.of_nat k * HOUR)
          ++ "*")%string) /\
    key_list = concat (map (s3_glob store_example) queries).
Proof.
  split; [unfold ns_per_sec; lia|].
  apply get_s3_list_hourly_queries; unfold ns_per_sec; lia.
Defined.

(** ** Building the time series *)

Section Loops.
Variable fs : file_system.
Variables (radar_id field : string) (azimuth : Z).

Lemma local_step_ok st k r t p rg :
  fs k = Some (Volume r) -> key_time radar_id k = Ok t ->
  get_composite_field r field azimuth = Ok (p, rg) ->
  local_step fs radar_id field azimuth st k = Ok (push_ray p rg (push_time t st)).
Proof.
  intros Hf Ht Hc; unfold local_step, read_path.
  rewrite Ht; simpl; rewrite Hf; simpl; rewrite Hc; reflexivity.
Qed.

Lemma s3_step_ok st k r t p rg :
  fs k = Some (Volume r) -> key_time radar_id k = Ok t ->
  get_composite_field r field azimuth = Ok (p, rg) ->
  s3_step fs radar_id field azimuth st k = Ok (push_ray p rg (push_time t st)).
Proof.
  intros Hf Ht Hc; unfold s3_step, s3_try_body.
  rewrite Hf; simpl; rewrite Ht, Hc; reflexivity.
Qed.

Lemma s3_step_corrupt st k :
  fs k = Some Corrupt -> s3_step fs radar_id field azimuth st k = Ok st.
Proof. intros Hf; unfold s3_step; rewrite Hf; reflexivity. Qed.

Lemma s3_step_bad_name st k f :
  fs k = Some f -> is_err (key_time radar_id k) = true ->
  s3_step fs radar_id field azimuth st k = Ok st.
Proof.
  intros Hf Ht; unfold s3_step, s3_try_body; rewrite Hf.
  destruct (pyart_read f); [|reflexivity].
  destruct (key_time radar_id k); [discriminate | reflexivity].
Qed.

Lemma local_step_bad_name st k :
  is_err (key_time radar_id k) = true ->
  is_err (local_step fs radar_id field azimuth st k) = true.
Proof.
  intros Ht; unfold local_step.
  destruct (key_time radar_id k); [discriminate | reflexivity].
Qed.
End Loops.

Lemma fold_result_skip {A B} (f : A -> B -> result A) k :
  (forall st, f st k = Ok st) ->
  forall pre post a,
    fold_result f (pre ++ k :: post) a = fold_result f (pre ++ post) a.
Proof.
  intros Hk pre; induction pre as [|x pre IH]; intros post a; simpl.
  - rewrite Hk; reflexivity.
  - destruct (f a x); simpl; [apply IH | reflexivity].
Qed.

Lemma fold_result_err {A B} (f : A -> B -> result A) k :
  (forall st, is_err (f st k) = true) ->
  forall l a, In k l -> is_err (fold_result f l a) = true.
Proof.
  intros Hk l; induction l as [|x l IH]; intros a Hin; [destruct Hin|]; simpl.
  destruct Hin as [->|Hin].
  - specialize (Hk a); destruct (f a k); [discriminate | reflexivity].
  - destruct (f a x); simpl; [apply IH; exact Hin | reflexivity].
Qed.

Lemma build_dataset_ok times rays rg0 ranges' L :
  rays <> [] -> (forall p, In p rays -> length p = L) ->
  length rg0 = L -> length times = length rays ->
  build_dataset (mk_accum times rays (rg0 :: ranges'))
  = Ok (mk_dataset times rg0 rays).
Proof.
  intros Hne Hlen Hrg Ht; unfold build_dataset, vstack; simpl.
  destruct rays as [|p0 ps]; [contradiction|].
  assert (Hall : forallb (fun x => Nat.eqb (length x) (length p0)) (p0 :: ps) = true).
  { apply forallb_forall; intros x Hx; apply Nat.eqb_eq.
    rewrite (Hlen x Hx), (Hlen p0 (or_introl eq_refl)); reflexivity. }
  rewrite Hall; simpl.
  rewrite Ht, Nat.eqb_refl, (Hlen p0 (or_introl eq_refl)), Hrg, Nat.eqb_refl.
  reflexivity.
Qed.

Section Series.
Variable fs : file_system.
Variables (radar_id field : string) (azimuth : Z).
Variables (tm : string -> timestamp) (pr : string -> list cell) (rg : string -> list Z).

Local Abbreviation key_succeeds := (key_succeeds fs radar_id field azimuth tm pr rg).

Lemma fold_local_ok :
  forall keys st,
    (forall k, In k keys -> key_succeeds k) ->
    fold_result (local_step fs radar_id field azimuth) keys st
    = Ok (mk_accum (acc_times st ++ map tm keys) (acc_rays st ++ map pr keys)
                   (acc_ranges st ++ map rg keys)).
Proof.
  induction keys as [|k keys IH]; intros st Hall; simpl.
  - rewrite !app_nil_r; destruct st; reflexivity.
  - destruct (Hall k (or_introl eq_refl)) as [r [Hf [Ht Hc]]].
    rewrite (local_step_ok fs radar_id field azimuth st k r (tm k) (pr k) (rg k) Hf Ht Hc).
    simpl; rewrite IH by (intros k' Hk'; apply Hall; right; exact Hk').
    simpl; rewrite <- !app_assoc; reflexivity.
Qed.

Lemma fold_s3_filter (succ : string -> bool) :
  forall keys st,
    (forall k, In k keys -> succ k = true -> key_succeeds k) ->
    (forall k, In k keys -> succ k = false ->
       exists f, fs k = Some f /\ (f = Corrupt \/ is_err (key_time radar_id k) = true)) ->
    fold_result (s3_step fs radar_id field azimuth) keys st
    = Ok (mk_accum (acc_times st ++ map tm (filter succ keys))
                   (acc_rays st ++ map pr (filter succ keys))
                   (acc_ranges st ++ map rg (filter succ keys))).
Proof.
  induction keys as [|k keys IH]; intros st Hs Hf; simpl.
  - rewrite !app_nil_r; destruct st; reflexivity.
  - destruct (succ k) eqn:E.
    + destruct (Hs k (or_introl eq_refl) E) as [r [Hfk [Ht Hc]]].
      rewrite (s3_step_ok fs radar_id field azimuth st k r (tm k) (pr k) (rg k) Hfk Ht Hc).
      simpl; rewrite IH by (intros k' Hk'; first [apply Hs | apply Hf]; right; exact Hk').
      simpl; rewrite <- !app_assoc; reflexivity.
    + destruct (Hf k (or_introl eq_refl) E) as [f [Hfk [->|Ht]]].
      * rewrite (s3_step_corrupt fs radar_id field azimuth st k Hfk); simpl.
        apply IH; intros k' Hk'; first [apply Hs | apply Hf]; right; exact Hk'.
      * rewrite (s3_step_bad_name fs radar_id field azimuth st k f Hfk Ht); simpl.
        apply IH; intros k' Hk'; first [apply Hs | apply Hf]; right; exact Hk'.
Qed.
End Series.

(** C3 (counterexample): two keys that both decode and extract, with
    profiles of 4 and 3 bins, make [get_composite_from_list] raise instead
    of returning a table of 2 entries. *)
Lemma composite_series_gate_mismatch :
  (exists r1 t1 c1, fs_example key_a1 = Some (Volume r1) /\
     key_time "KATX" key_a1 = Ok t1 /\ get_composite_field r1 "reflectivity" 235 = Ok c1) /\
  (exists r2 t2 c2, fs_example key_b = Some (Volume r2) /\
     key_time "KATX" key_b = Ok t2 /\ get_composite_field r2 "reflectivity" 235 = Ok c2) /\
  get_composite_from_list fs_example "KATX" "reflectivity" 235 [key_a1; key_b]
  = Err ValueError.
Proof.
  split; [|split].
  - do 3 eexists; split; [reflexivity | split; vm_compute; reflexivity].
  - do 3 eexists; split; [reflexivity | split; vm_compute; reflexivity].
  - vm_compute; reflexivity.
Qed.

(** C3 (amended): when every profile has as many bins as the range axis
    of the first successful file, (local) [N] keys that all parse, decode
    and extract give a table of [N] timestamps and [N] rows in key order;
    (remote) when every key either succeeds or names an existing object
    that fails to decode or whose name does not parse, the table holds the
    succeeding keys' timestamps and rows in key order. Either way the
    range axis is that of the first successful file. *)
Theorem composite_series_rows :
  (forall fs radar_id field azimuth keys tm pr rg L,
     keys <> [] ->
     (forall k, In k keys ->
        key_succeeds fs radar_id field azimuth tm pr rg k /\ length (pr k) = L) ->
     length (rg (hd ""%string keys)) = L ->
     get_composite_from_list fs radar_id field azimuth keys
     = Ok (mk_dataset (map tm keys) (rg (hd ""%string keys)) (map pr keys))) /\
  (forall fs radar_id field azimuth keys (succ : string -> bool) tm pr rg L k0 ks,
     (forall k, In k keys -> succ k = true ->
        key_succeeds fs radar_id field azimuth tm pr rg k /\ length (pr k) = L) ->
     (forall k, In k keys -> succ k = false ->
        exists f, fs k = Some f /\
                  (f = Corrupt \/ is_err (key_time radar_id k) = true)) ->
     filter succ keys = k0 :: ks ->
     length (rg k0) = L ->
     get_composite_from_s3_list fs radar_id field azimuth keys
     = Ok (mk_dataset (map tm (k0 :: ks)) (rg k0) (map pr (k0 :: ks)))).
Proof.
  split.
  - intros fs radar_id field azimuth keys tm pr rg L Hne Hall Hrg.
    unfold get_composite_from_list.
    rewrite (fold_local_ok fs radar_id field azimuth tm pr rg keys accum0)
      by (intros k Hk; apply Hall; exact Hk).
    simpl; destruct keys as [|k0 ks]; [contradiction|]; simpl.
    apply (build_dataset_ok _ _ _ _ L).
    + discriminate.
    + intros p Hp; change (In p (map pr (k0 :: ks))) in Hp.
      apply in_map_iff in Hp as [k [<- Hk]]; apply Hall; exact Hk.
    + exact Hrg.
    + simpl; rewrite !length_map; reflexivity.
  - intros fs radar_id field azimuth keys succ tm pr rg L k0 ks Hs Hf Hfil Hrg.
    unfold get_composite_from_s3_list.
    rewrite (fold_s3_filter fs radar_id field azimuth tm pr rg succ keys accum0)
      by (try (intros k Hk Hsk; apply Hs; assumption); exact Hf).
    simpl; rewrite Hfil; simpl.
    apply (build_dataset_ok _ _ _ _ L).
    + discriminate.
    + intros p Hp; change (In p (map pr (k0 :: ks))) in Hp.
      apply in_map_iff in Hp as [k [<- Hk]].
      rewrite <- Hfil in Hk; apply filter_In in Hk as [Hk Hsk].
      apply Hs; assumption.
    + exact Hrg.
    + simpl; rewrite !length_map; reflexivity.
Qed.

(** Witness for [composite_series_rows]: two good keys locally; the
    corrupted [key_a2] between them remotely. *)
Lemma composite_series_rows_witness :
  get_composite_from_list fs_example "KATX" "reflectivity" 235 [key_a1; key_a3]
  = Ok (mk_dataset (map tm_example [key_a1; key_a3])
          (rg_example (hd ""%string [key_a1; key_a3]))
          (map pr_example [key_a1; key_a3])) /\
  get_composite_from_s3_list fs_example "KATX" "reflectivity" 235
    [key_a1; key_a2; key_a3]
  = Ok (mk_dataset (map tm_example [key_a1; key_a3]) (rg_example key_a1)
          (map pr_example [key_a1; key_a3])).
Proof.
  split.
  - apply (proj1 composite_series_rows _ _ _ _ _ _ _ _ 4%nat).
    + discriminate.
    + intros k [<-|[<-|[]]]; (split; [|vm_compute; reflexivity]);
        exists radar_a; (split; [reflexivity | split; vm_compute; reflexivity]).
    + vm_compute; reflexivity.
  - apply (proj2 composite_series_rows _ _ _ _ _ succ_example _ _ _ 4%nat).
    + intros k [<-|[<-|[<-|[]]]] Hs; try discriminate;
        (split; [|vm_compute; reflexivity]);
        exists radar_a; (split; [reflexivity | split; vm_compute; reflexivity]).
    + intros k [<-|[<-|[<-|[]]]] Hs; try discriminate.
      exists Corrupt; split; [reflexivity | left; reflexivity].
    + vm_compute; reflexivity.
    + vm_compute; reflexivity.
Defined.

(** C4: with three remote keys of which the second names a corrupted
    file, [get_composite_from_s3_list] returns the two rows of the first
    and third keys, while [get_composite_from_list] on the same keys
    raises. *)
Theorem remote_skips_corrupt_local_raises :
  forall fs radar_id field azimuth k1 k2 k3 r1 r3 t1 t3 p1 p3 rg1 rg3,
    fs k1 = Some (Volume r1) -> key_time radar_id k1 = Ok t1 ->
    get_composite_field r1 field azimuth = Ok (p1, rg1) ->
    fs k2 = Some Corrupt ->
    fs k3 = Some (Volume r3) -> key_time radar_id k3 = Ok t3 ->
    get_composite_field r3 field azimuth = Ok (p3, rg3) ->
    length p1 = length rg1 -> length p3 = length rg1 ->
    get_composite_from_s3_list fs radar_id field azimuth [k1; k2; k3]
      = Ok (mk_dataset [t1; t3] rg1 [p1; p3]) /\
    is_err (get_composite_from_list fs radar_id field azimuth [k1; k2; k3]) = true.
Proof.
  intros fs radar_id field azimuth k1 k2 k3 r1 r3 t1 t3 p1 p3 rg1 rg3
    Hf1 Ht1 Hc1 Hf2 Hf3 Ht3 Hc3 Hl1 Hl3.
  split.
  - unfold get_composite_from_s3_list; cbn [fold_result].
    rewrite (s3_step_ok fs radar_id field azimuth _ k1 r1 t1 p1 rg1 Hf1 Ht1 Hc1); cbn [bind].
    rewrite (s3_step_corrupt fs radar_id field azimuth _ k2 Hf2); cbn [bind].
    rewrite (s3_step_ok fs radar_id field azimuth _ k3 r3 t3 p3 rg3 Hf3 Ht3 Hc3); cbn [bind].
    apply (build_dataset_ok _ _ _ _ (length rg1)).
    + discriminate.
    + intros p [<-|[<-|[]]]; assumption.
    + reflexivity.
    + reflexivity.
  - unfold get_composite_from_list.
    assert (H2 : is_err (fold_result (local_step fs radar_id field azimuth)
                                     [k1; k2; k3] accum0) = true).
    { apply (fold_result_err _ k2); [|right; left; reflexivity].
      intros st; unfold local_step, read_path.
      destruct (key_time radar_id k2); [simpl; rewrite Hf2 |]; reflexivity. }
    destruct (fold_result _ _ _); [discriminate | reflexivity].
Qed.

(** Witness for [remote_skips_corrupt_local_raises]. *)
Lemma remote_skips_corrupt_local_raises_witness :
  get_composite_from_s3_list fs_example "KATX" "reflectivity" 235 [key_a1; key_a2; key_a3]
    = Ok (mk_dataset [tm_example key_a1; tm_example key_a3] (rg_example key_a1)
            [pr_example key_a1; pr_example key_a3]) /\
  is_err (get_composite_from_list fs_example "KATX" "reflectivity" 235
            [key_a1; key_a2; key_a3]) = true.
Proof.
  apply (remote_skips_corrupt_local_raises fs_example "KATX" "reflectivity" 235
           key_a1 key_a2 key_a3 radar_a radar_a _ _ _ _ _ (rg_example key_a3)).
  all: vm_compute; reflexivity.
Defined.

(** C7 (counterexample): in the remote variant a key whose name does not
    match the template is skipped: [key_bad] does not parse, yet the run
    returns a one-row table. *)
Lemma remote_bad_name_not_fatal :
  is_err (key_time "KATX" key_bad) = true /\
  exists ds,
    get_composite_from_s3_list fs_example "KATX" "reflectivity" 235 [key_a1; key_bad]
    = Ok ds /\ length (ds_time ds) = 1%nat.
Proof.
  split; [vm_compute; reflexivity|].
  eexists; split; [vm_compute; reflexivity | reflexivity].
Qed.

(** C7 (amended): a key whose base name fails to parse with the
    template makes [get_composite_from_list] raise; in
    [get_composite_from_s3_list] such a key, naming an existing object,
    is skipped: the result is that of the list without it. A base name
    that is empty or one of pandas' missing-value strings ("NaT", "nat",
    "NAT", "nan", "NaN", "NAN") does not fail: it is not matched against
    the template and its timestamp is [NaT]. *)
Theorem key_time_mismatch_handling :
  (forall fs radar_id field azimuth keys k,
     In k keys -> is_err (key_time radar_id k) = true ->
     is_err (get_composite_from_list fs radar_id field azimuth keys) = true) /\
  (forall fs radar_id field azimuth pre post k f,
     fs k = Some f -> is_err (key_time radar_id k) = true ->
     get_composite_from_s3_list fs radar_id field azimuth (pre ++ k :: post)
     = get_composite_from_s3_list fs radar_id field azimuth (pre ++ post)) /\
  (forall radar_id k,
     In (basename (basename k)) (""%string :: nat_strings) ->
     key_time radar_id k = Ok NaT).
Proof.
  split; [|split].
  - intros fs radar_id field azimuth keys k Hin Ht.
    unfold get_composite_from_list.
    assert (H : is_err (fold_result (local_step fs radar_id field azimuth)
                                    keys accum0) = true).
    { apply (fold_result_err _ k); [|exact Hin].
      intros st; apply local_step_bad_name; exact Ht. }
    destruct (fold_result _ _ _); [discriminate | reflexivity].
  - intros fs radar_id field azimuth pre post k f Hf Ht.
    unfold get_composite_from_s3_list.
    rewrite (fold_result_skip _ k); [reflexivity|].
    intros st; apply (s3_step_bad_name _ _ _ _ _ _ f Hf Ht).
  - intros radar_id k Hk; unfold key_time; simpl py_format; cbn [bind].
    unfold to_datetime.
    replace (String.eqb (basename (basename k)) ""
             || existsb (String.eqb (basename (basename k))) nat_strings)%bool
      with true; [reflexivity|].
    destruct Hk as [Hk|Hk].
    + rewrite <- Hk; reflexivity.
    + symmetry; apply orb_true_iff; right; apply existsb_exists.
      exists (basename (basename k)); split; [exact Hk | apply String.eqb_refl].
Qed.

(** Witness for [key_time_mismatch_handling]. *)
Lemma key_time_mismatch_handling_witness :
  is_err (get_composite_from_list fs_example "KATX" "reflectivity" 235
            [key_a1; key_bad]) = true /\
  get_composite_from_s3_list fs_example "KATX" "reflectivity" 235
    ([key_a1] ++ key_bad :: [key_a3])
  = get_composite_from_s3_list fs_example "KATX" "reflectivity" 235
      ([key_a1] ++ [key_a3]) /\
  key_time "KATX" "noaa-nexrad-level2/2020/06/15/KATX/nan" = Ok NaT.
Proof.
  split; [|split].
  - apply (proj1 key_time_mismatch_handling _ _ _ _ _ key_bad).
    + right; left; reflexivity.
    + vm_compute; reflexivity.
  - apply (proj1 (proj2 key_time_mismatch_handling) _ _ _ _ _ _ _ (Volume radar_a)).
    + reflexivity.
    + vm_compute; reflexivity.
  - apply (proj2 (proj2 key_time_mismatch_handling)).
    vm_compute; right; right; right; right; left; reflexivity.
Defined.

Lemma s3_step_no_success fs radar_id field azimuth k st :
  ~ (exists r t c, fs k = Some (Volume r) /\ key_time radar_id k = Ok t /\
                   get_composite_field r field azimuth = Ok c) ->
  is_err (s3_step fs radar_id field azimuth st k) = true \/
  exists st', s3_step fs radar_id field azimuth st k = Ok st' /\
              acc_ranges st' = acc_ranges st.
Proof.
  intros Hno; unfold s3_step, s3_try_body.
  destruct (fs k) as [f|] eqn:Hf; [right | left; reflexivity].
  destruct f as [r|]; simpl; [|eexists; split; reflexivity].
  destruct (key_time radar_id k) as [t|] eqn:Ht; [|eexists; split; reflexivity].
  destruct (get_composite_field r field azimuth) as [c|] eqn:Hc;
    [|eexists; split; reflexivity].
  exfalso; apply Hno; exists r, t, c; auto.
Qed.

Lemma fold_s3_no_success fs radar_id field azimuth :
  forall keys st,
    (forall k, In k keys ->
       ~ (exists r t c, fs k = Some (Volume r) /\ key_time radar_id k = Ok t /\
                        get_composite_field r field azimuth = Ok c)) ->
    is_err (fold_result (s3_step fs radar_id field azimuth) keys st) = true \/
    exists st', fold_result (s3_step fs radar_id field azimuth) keys st = Ok st' /\
                acc_ranges st' = acc_ranges st.
Proof.
  induction keys as [|k keys IH]; intros st Hall; simpl.
  - right; exists st; split; reflexivity.
  - destruct (s3_step_no_success fs radar_id field azimuth k st
                (Hall k (or_introl eq_refl))) as [He|[st' [Hs Hr]]].
    + left; destruct (s3_step _ _ _ _ _ _); [discriminate | reflexivity].
    + rewrite Hs; simpl.
      destruct (IH st') as [He|[st'' [Hs' Hr']]];
        [intros k' Hk'; apply Hall; right; exact Hk' | left; exact He |].
      right; exists st''; split; [exact Hs' | congruence].
Qed.

(** C10: [get_composite_from_list] on no keys raises [IndexError]
    ([ranges[0]] of an empty list), and [get_composite_from_s3_list]
    raises whenever no key parses, decodes and extracts. *)
Theorem composite_series_empty_raises :
  (forall fs radar_id field azimuth,
     get_composite_from_list fs radar_id field azimuth [] = Err IndexError) /\
  (forall fs radar_id field azimuth keys,
     (forall k, In k keys ->
        ~ (exists r t c, fs k = Some (Volume r) /\ key_time radar_id k = Ok t /\
                         get_composite_field r field azimuth = Ok c)) ->
     is_err (get_composite_from_s3_list fs radar_id field azimuth keys) = true).
Proof.
  split; [reflexivity|].
  intros fs radar_id field azimuth keys Hall.
  unfold get_composite_from_s3_list.
  destruct (fold_s3_no_success fs radar_id field azimuth keys accum0 Hall)
    as [He|[st [Hs Hr]]].
  - destruct (fold_result _ _ _); [discriminate | reflexivity].
  - rewrite Hs; simpl; unfold build_dataset; rewrite Hr; reflexivity.
Qed.

(** Witness for [composite_series_empty_raises]: [key_a2] is corrupted
    and [key_bad] does not parse. *)
Lemma composite_series_empty_raises_witness :
  get_composite_from_list fs_example "KATX" "reflectivity" 235 [] = Err IndexError /\
  is_err (get_composite_from_s3_list fs_example "KATX" "reflectivity" 235
            [key_a2; key_bad]) = true.
Proof.
  split.
  - apply (proj1 composite_series_empty_raises).
  - apply (proj2 composite_series_empty_raises).
    intros k [<-|[<-|[]]] [r [t [c [Hf [Ht _]]]]].
    + discriminate.
    + vm_compute in Ht; discriminate.
Defined.

(** ** Partition keys and the filename template *)

Local Open Scope string_scope.

Lemma strip_trailing_star_app (p : string) :
  strip_trailing_star (p ++ "*") = Some p.
Proof.
  induction p as [|a p IH]; [reflexivity|].
  simpl; rewrite IH.
  destruct a as [[] [] [] [] [] [] [] []]; try reflexivity.
  destruct p; reflexivity.
Qed.

Lemma strip_prefix_some (p k r : string) :
  strip_prefix p k = Some r -> k = (p ++ r)%string.
Proof.
  revert k; induction p as [|a p IH]; intros k H; simpl in *.
  - injection H as ->; reflexivity.
  - destruct k as [|b k]; [discriminate|].
    destruct (Ascii.eqb_spec a b) as [<-|]; [|discriminate].
    rewrite (IH k H); reflexivity.
Qed.

Lemma has_slash_app (a b : string) :
  has_slash (a ++ b) = has_slash a || has_slash b.
Proof.
  induction a as [|c a IH]; simpl; [reflexivity|].
  rewrite IH, orb_assoc; reflexivity.
Qed.



























(** C9: [open_nexrad_file] raises [NameError] on every input, a local
    compressed file included: its first statement calls [try_file_gunzip],
    a name that the module neither defines nor imports, so nothing is
    decompressed, read or recompressed and the disk is left as it was. *)
Theorem open_nexrad_file_name_error gunzip_impl d filename io :
  open_nexrad_file gunzip_impl d filename io = Err NameError.
Proof.
  reflexivity.
Qed.

(** * Further properties of the module *)

(** ** Locating volumes *)

Lemma HOUR_value : HOUR = 3600000000000.
Proof. reflexivity. Qed.

Lemma date_range_hourly_empty start end_ :
  end_ < start -> date_range_hourly start end_ = [].
Proof.
  intros Hlt; unfold date_range_hourly, generate_regular_range, arange.
  replace (HOUR / 2) with 1800000000000 by reflexivity.
  rewrite HOUR_value.
  set (q := (end_ - start) / 3600000000000).
  assert (Hq : q <= -1).
  { pose proof (Z.mul_div_le (end_ - start) 3600000000000 ltac:(lia)) as H1.
    pose proof (Z.mod_pos_bound (end_ - start) 3600000000000 ltac:(lia)).
    pose proof (Z.div_mod (end_ - start) 3600000000000 ltac:(lia)).
    fold q in H1 |- *; nia. }
  assert (Hn : (start + q * 3600000000000 + 1800000000000 + 1 - start
                + 3600000000000 - 1) / 3600000000000 <= 0).
  { apply Z.lt_succ_r, Z.div_lt_upper_bound; lia. }
  rewrite Z.max_l by exact Hn; reflexivity.
Qed.

(** X: [get_s3_list] with [end] before [start] issues no query and
    returns an empty key list ([pd.date_range] is empty). *)
Theorem get_s3_list_empty_range store start end_ radar_id bucket :
  end_ < start -> get_s3_list store start end_ radar_id bucket = Ok ([], []).
Proof.
  intros Hlt; unfold get_s3_list; rewrite py_format_S3_FMT; cbn [bind].
  rewrite date_range_hourly_empty by exact Hlt; reflexivity.
Qed.

Lemma get_s3_list_empty_range_witness :
  get_s3_list store_example HOUR 0 "KATX" "noaa-nexrad-level2" = Ok ([], []).
Proof.
  apply get_s3_list_empty_range; rewrite HOUR_value; lia.
Defined.

(** ** Opening a volume from S3 *)

(** X: [open_nexrad_from_s3] never returns a volume: it raises what
    [s3fs.get] raises, and otherwise the [NameError] of
    [open_nexrad_file]. *)
Theorem open_nexrad_from_s3_fails s3fs_get gunzip_impl d temp88d s3key io :
  open_nexrad_from_s3 s3fs_get gunzip_impl d temp88d s3key io
  = match s3fs_get s3key temp88d d with
    | Err e => Err e
    | Ok _ => Err NameError
    end.
Proof.
  unfold open_nexrad_from_s3; destruct (s3fs_get s3key temp88d d); reflexivity.
Qed.

(** ** Building the time series: failures *)

(** X: a key whose file is missing or corrupted makes
    [get_composite_from_list] raise. *)
Theorem local_missing_or_corrupt_raises fs radar_id field azimuth keys k :
  In k keys -> fs k = None \/ fs k = Some Corrupt ->
  is_err (get_composite_from_list fs radar_id field azimuth keys) = true.
Proof.
  intros Hin Hk; unfold get_composite_from_list.
  assert (H : is_err (fold_result (local_step fs radar_id field azimuth)
                                  keys accum0) = true).
  { apply (fold_result_err _ k); [|exact Hin].
    intros st; unfold local_step, read_path.
    destruct (key_time radar_id k); [|reflexivity]; cbn [bind].
    destruct Hk as [-> | ->]; reflexivity. }
  destruct (fold_result _ _ _); [discriminate | reflexivity].
Qed.

Lemma local_missing_or_corrupt_raises_witness :
  is_err (get_composite_from_list fs_example "KATX" "reflectivity" 235
            [key_a1; key_a2; key_a3]) = true.
Proof.
  apply (local_missing_or_corrupt_raises _ _ _ _ _ key_a2);
    [simpl; tauto | right; reflexivity].
Defined.

(** X: a key with no object behind it makes [get_composite_from_s3_list]
    raise: [s3conn.open] is outside the [try]. *)
Theorem remote_missing_object_raises fs radar_id field azimuth keys k :
  In k keys -> fs k = None ->
  is_err (get_composite_from_s3_list fs radar_id field azimuth keys) = true.
Proof.
  intros Hin Hk; unfold get_composite_from_s3_list.
  assert (H : is_err (fold_result (s3_step fs radar_id field azimuth)
                                  keys accum0) = true).
  { apply (fold_result_err _ k); [|exact Hin].
    intros st; unfold s3_step; rewrite Hk; reflexivity. }
  destruct (fold_result _ _ _); [discriminate | reflexivity].
Qed.

Lemma remote_missing_object_raises_witness :
  is_err (get_composite_from_s3_list fs_example "KATX" "reflectivity" 235
            [key_a1; key_mdm; key_a3]) = true.
Proof.
  apply (remote_missing_object_raises _ _ _ _ _ key_mdm);
    [simpl; tauto | reflexivity].
Defined.

(** X: in [get_composite_from_s3_list] a corrupted object is dropped
    wherever it stands: the result is that of the key list without it. *)
Theorem remote_drops_corrupt_key fs radar_id field azimuth pre post k :
  fs k = Some Corrupt ->
  get_composite_from_s3_list fs radar_id field azimuth (pre ++ k :: post)
  = get_composite_from_s3_list fs radar_id field azimuth (pre ++ post).
Proof.
  intros Hk; unfold get_composite_from_s3_list.
  rewrite (fold_result_skip _ k); [reflexivity|].
  intros st; apply s3_step_corrupt; exact Hk.
Qed.

Lemma remote_drops_corrupt_key_witness :
  get_composite_from_s3_list fs_example "KATX" "reflectivity" 235
    ([key_a1] ++ key_a2 :: [key_b])
  = get_composite_from_s3_list fs_example "KATX" "reflectivity" 235
      ([key_a1] ++ [key_b]).
Proof.
  apply remote_drops_corrupt_key; reflexivity.
Defined.


Lemma s3_try_body_gap radar_id field azimuth f k st n :
  time_gap n st -> time_gap n (s3_try_body radar_id field azimuth f k st).
Proof.
  unfold time_gap, s3_try_body; intros H.
  destruct (pyart_read f); [|exact H].
  destruct (key_time radar_id k); [|exact H].
  destruct (get_composite_field _ _ _) as [[ray rng]|];
    simpl; rewrite ?length_app; simpl; lia.
Qed.

Lemma fold_s3_gap fs radar_id field azimuth :
  forall keys st st' n,
    fold_result (s3_step fs radar_id field azimuth) keys st = Ok st' ->
    time_gap n st -> time_gap n st'.
Proof.
  induction keys as [|k keys IH]; intros st st' n Hf Hg; simpl in Hf.
  - injection Hf as <-; exact Hg.
  - unfold s3_step in Hf; destruct (fs k); [|discriminate]; cbn [bind] in Hf.
    eapply IH; [exact Hf|].
    apply s3_try_body_gap; exact Hg.
Qed.

Lemma fold_s3_extraction_gap fs radar_id field azimuth k r t :
  fs k = Some (Volume r) -> key_time radar_id k = Ok t ->
  is_err (get_composite_field r field azimuth) = true ->
  forall keys st st',
    In k keys ->
    fold_result (s3_step fs radar_id field azimuth) keys st = Ok st' ->
    time_gap 0 st -> time_gap 1 st'.
Proof.
  intros Hf Ht He; induction keys as [|k0 keys IH]; intros st st' Hin Hfold Hg;
    [contradiction|].
  simpl in Hfold; unfold s3_step in Hfold.
  destruct (fs k0) as [f0|] eqn:Hf0; [|discriminate]; cbn [bind] in Hfold.
  destruct (String.eqb_spec k0 k) as [->|Hne].
  - eapply fold_s3_gap; [exact Hfold|].
    rewrite Hf in Hf0; injection Hf0 as <-.
    unfold time_gap, s3_try_body; simpl pyart_read; cbv iota beta; rewrite Ht.
    destruct (get_composite_field r field azimuth); [discriminate|].
    unfold time_gap in Hg; simpl; rewrite length_app; simpl; lia.
  - destruct Hin as [Hin|Hin]; [congruence|].
    eapply IH; [exact Hin | exact Hfold |].
    apply s3_try_body_gap; exact Hg.
Qed.

Lemma vstack_ok rows ref : vstack rows = Ok ref -> ref = rows.
Proof.
  unfold vstack; destruct rows as [|r rs]; [discriminate|].
  destruct (forallb _ _); [|discriminate]; intros H; injection H as <-; reflexivity.
Qed.

Lemma build_dataset_gap st : time_gap 1 st -> is_err (build_dataset st) = true.
Proof.
  unfold time_gap, build_dataset; intros Hg.
  destruct (acc_ranges st) as [|rg0 rgs]; [reflexivity|]; cbn [bind].
  destruct (vstack (acc_rays st)) as [ref|] eqn:Hv; [|reflexivity]; cbn [bind].
  apply vstack_ok in Hv; subst ref.
  destruct (Nat.eqb_spec (length (acc_times st)) (length (acc_rays st)));
    [lia | reflexivity].
Qed.

(** X: in [get_composite_from_s3_list], a key whose volume decodes and
    whose name parses but whose extraction raises makes the whole run
    raise: its timestamp is appended before the extraction, so there are
    more timestamps than profiles. *)
Theorem remote_extraction_failure_raises fs radar_id field azimuth keys k r t :
  In k keys -> fs k = Some (Volume r) -> key_time radar_id k = Ok t ->
  is_err (get_composite_field r field azimuth) = true ->
  is_err (get_composite_from_s3_list fs radar_id field azimuth keys) = true.
Proof.
  intros Hin Hf Ht He; unfold get_composite_from_s3_list.
  destruct (fold_result (s3_step fs radar_id field azimuth) keys accum0)
    as [st|] eqn:Hfold; [|reflexivity]; cbn [bind].
  apply build_dataset_gap.
  apply (fold_s3_extraction_gap fs radar_id field azimuth k r t Hf Ht He
           keys accum0 st Hin Hfold).
  unfold time_gap; simpl; lia.
Qed.

Lemma remote_extraction_failure_raises_witness :
  is_err (get_composite_from_s3_list fs_noref "KATX" "reflectivity" 235
            [key_a1; key_a3]) = true.
Proof.
  apply (remote_extraction_failure_raises _ _ _ _ _ key_a3 radar_noref
           (Timestamp 1592180088000000000));
    [simpl; tauto | reflexivity | vm_compute; reflexivity | reflexivity].
Defined.

(** ** The composite profile *)

(** X: [get_composite_field] raises [KeyError] when the volume has no
    reflectivity field, whatever field it is asked for. *)
Theorem get_composite_field_no_reflectivity r field azimuth :
  assoc_lookup "reflectivity"%string (radar_fields r) = None ->
  get_composite_field r field azimuth = Err KeyError.
Proof.
  intros H; unfold get_composite_field, azimuth_rhi_data; rewrite H; reflexivity.
Qed.

Lemma get_composite_field_no_reflectivity_witness :
  get_composite_field radar_noref "velocity" 235 = Err KeyError.
Proof.
  apply get_composite_field_no_reflectivity; reflexivity.
Defined.

Lemma argmin_err l e : argmin l = Err e -> e = ValueError.
Proof. destruct l; simpl; intros H; [injection H as <-; reflexivity | discriminate]. Qed.

Lemma map_result_uniform_err {A B} (f : A -> result B) E :
  (forall x e, f x = Err e -> e = E) ->
  forall l, (exists x, In x l /\ is_err (f x) = true) -> map_result f l = Err E.
Proof.
  intros HE; induction l as [|x l IH]; intros [y [Hy Hf]]; [contradiction|].
  simpl; destruct (f x) as [b|e] eqn:Hx.
  - destruct Hy as [<-|Hy]; [rewrite Hx in Hf; discriminate|].
    cbn [bind]; rewrite IH by (exists y; auto); reflexivity.
  - cbn [bind]; rewrite (HE _ _ Hx); reflexivity.
Qed.

Lemma map_result_err_elem {A B} (f : A -> result B) l e :
  map_result f l = Err e -> exists x, In x l /\ f x = Err e.
Proof.
  induction l as [|x l IH]; simpl; [discriminate|].
  destruct (f x) as [b|e'] eqn:Hx; cbn [bind].
  - destruct (map_result f l); [discriminate|].
    intros H; destruct (IH H) as [y [Hy Hfy]]; exists y; auto.
  - intros H; injection H as ->; exists x; auto.
Qed.

(** X: for a volume with a reflectivity field, [get_composite_field]
    raises [IndexError] when the volume has no sweep (the pseudo-RHI has
    no ray, and its elevation edges index an empty array), and
    [ValueError] when some sweep has no ray ([np.argmin] of an empty
    array). *)
Theorem get_composite_field_empty_sweep r field azimuth data :
  assoc_lookup "reflectivity"%string (radar_fields r) = Some data ->
  (radar_sweeps r = [] -> get_composite_field r field azimuth = Err IndexError) /\
  ((exists s e, In (s, e) (radar_sweeps r) /\
                ((e <= s)%nat \/ (length (radar_azimuths r) <= s)%nat)) ->
   get_composite_field r field azimuth = Err ValueError).
Proof.
  intros Hd; unfold get_composite_field, azimuth_rhi_data; rewrite Hd; split.
  - intros Hs; rewrite Hs; cbn [map_result bind length].
    unfold antenna_vectors_edges, interpolate_edges.
    destruct (length (radar_ranges r) <? 2)%nat; reflexivity.
  - intros [s [e [Hin Hse]]].
    rewrite (map_result_uniform_err _ ValueError); [reflexivity| |].
    + intros [s' e'] err; cbn beta iota.
      destruct (argmin _) eqn:Ha; cbn [bind]; [discriminate|].
      intros H; injection H as <-; exact (argmin_err _ _ Ha).
    + exists (s, e); split; [exact Hin|]; cbn beta iota.
      replace (firstn (e - s) (skipn s (radar_azimuths r))) with (@nil Z);
        [reflexivity|].
      destruct Hse as [Hse|Hse].
      * replace (e - s)%nat with O by lia; reflexivity.
      * rewrite skipn_all2 by exact Hse; destruct (e - s)%nat; reflexivity.
Qed.

Lemma get_composite_field_empty_sweep_witness :
  get_composite_field (mk_radar [0; 235] []
                         [("reflectivity"%string, [[Some 1]; [Some 2]])] [0; 250])
    "reflectivity" 235 = Err IndexError /\
  get_composite_field (mk_radar [0; 235] [(0, 2); (2, 2)]%nat
                         [("reflectivity"%string, [[Some 1]; [Some 2]])] [0; 250])
    "reflectivity" 235 = Err ValueError.
Proof.
  split.
  - apply (proj1 (get_composite_field_empty_sweep
                    (mk_radar [0; 235] [] [("reflectivity"%string, [[Some 1]; [Some 2]])]
                       [0; 250])
                    "reflectivity" 235 [[Some 1]; [Some 2]] eq_refl));
      reflexivity.
  - apply (proj2 (get_composite_field_empty_sweep
                    (mk_radar [0; 235] [(0, 2); (2, 2)]%nat
                       [("reflectivity"%string, [[Some 1]; [Some 2]])] [0; 250])
                    "reflectivity" 235 [[Some 1]; [Some 2]] eq_refl)).
    exists 2%nat, 2%nat; split; [simpl; tauto | left; lia].
Defined.

Lemma zip_nan_max2_bounded (B : Z -> Prop) :
  forall a b,
    (forall v, In (Some v) a -> B v) -> (forall v, In (Some v) b -> B v) ->
    forall v, In (Some v) (zip_with nan_max2 a b) -> B v.
Proof.
  induction a as [|x a IH]; intros b Ha Hb v Hv; [contradiction|].
  destruct b as [|y b]; [contradiction|].
  destruct Hv as [Hv|Hv].
  - destruct x as [x|], y as [y|]; simpl in Hv; try discriminate; injection Hv as <-.
    + destruct (Z.max_spec x y) as [[_ ->]|[_ ->]];
        [apply Hb | apply Ha]; left; reflexivity.
    + apply Ha; left; reflexivity.
    + apply Hb; left; reflexivity.
  - apply (IH b); [intros w Hw; apply Ha; right; exact Hw
                  | intros w Hw; apply Hb; right; exact Hw | exact Hv].
Qed.

Lemma fold_zip_nan_max2_bounded (B : Z -> Prop) :
  forall rows acc,
    (forall v, In (Some v) acc -> B v) ->
    (forall row v, In row rows -> In (Some v) row -> B v) ->
    forall v, In (Some v) (fold_left (zip_with nan_max2) rows acc) -> B v.
Proof.
  induction rows as [|row rows IH]; intros acc Hacc Hrows; simpl; [exact Hacc|].
  apply IH; [|intros r w Hr; apply Hrows; right; exact Hr].
  apply zip_nan_max2_bounded; [exact Hacc|].
  intros w; apply Hrows; left; reflexivity.
Qed.

(** X: every value of a composite profile lies in [-1000, 1000], and the
    range axis returned is the volume's. *)
Theorem get_composite_field_bounded r field azimuth p rng :
  get_composite_field r field azimuth = Ok (p, rng) ->
  rng = radar_ranges r /\ forall v, In (Some v) p -> -1000 <= v <= 1000.
Proof.
  unfold get_composite_field.
  destruct (azimuth_rhi_data r "reflectivity" azimuth) as [rows|]; [|discriminate].
  cbn [bind]; unfold nanmax_axis0.
  destruct (map (map mask_saturated) rows) as [|row0 rs] eqn:Hm; [discriminate|].
  cbn [bind]; intros H; injection H as <- <-; split; [reflexivity|].
  assert (Hmask : forall row v, In row (map (map mask_saturated) rows) ->
                    In (Some v) row -> -1000 <= v <= 1000).
  { intros row v Hrow Hv; apply in_map_iff in Hrow as [row' [<- _]].
    apply in_map_iff in Hv as [x [Hx _]].
    apply mask_saturated_some in Hx as [_ Hb]; exact Hb. }
  rewrite Hm in Hmask.
  apply fold_zip_nan_max2_bounded.
  - intros v; apply Hmask; left; reflexivity.
  - intros row v Hrow; apply Hmask; right; exact Hrow.
Qed.

Lemma get_composite_field_bounded_witness :
  get_composite_field radar_b "reflectivity" 235
  = Ok ([Some 20; Some 5; None], [0; 250; 500]) /\
  ([0; 250; 500] = radar_ranges radar_b /\
   forall v, In (Some v) [Some 20; Some 5; None] -> -1000 <= v <= 1000).
Proof.
  split; [vm_compute; reflexivity|].
  apply (get_composite_field_bounded radar_b "reflectivity" 235).
  vm_compute; reflexivity.
Defined.

Lemma nan_max2_comm a b : nan_max2 a b = nan_max2 b a.
Proof. destruct a, b; simpl; try reflexivity; rewrite Z.max_comm; reflexivity. Qed.

Lemma nan_max2_assoc a b c : nan_max2 a (nan_max2 b c) = nan_max2 (nan_max2 a b) c.
Proof. destruct a, b, c; simpl; try reflexivity; rewrite Z.max_assoc; reflexivity. Qed.

Lemma zip_with_comm {A} (f : A -> A -> A) :
  (forall x y, f x y = f y x) -> forall l1 l2, zip_with f l1 l2 = zip_with f l2 l1.
Proof.
  intros Hc; induction l1 as [|x l1 IH]; intros [|y l2]; simpl; try reflexivity.
  rewrite Hc, IH; reflexivity.
Qed.

Lemma zip_with_assoc {A} (f : A -> A -> A) :
  (forall x y z, f x (f y z) = f (f x y) z) ->
  forall l1 l2 l3,
    zip_with f l1 (zip_with f l2 l3) = zip_with f (zip_with f l1 l2) l3.
Proof.
  intros Ha; induction l1 as [|x l1 IH]; intros [|y l2] [|z l3]; simpl;
    try reflexivity.
  rewrite Ha, IH; reflexivity.
Qed.

Section FoldPerm.
Context {A : Type} (g : A -> A -> A).
Hypothesis g_comm : forall x y, g x y = g y x.
Hypothesis g_assoc : forall x y z, g x (g y z) = g (g x y) z.

Lemma fold_left_g_shift :
  forall l a b, fold_left g l (g a b) = g a (fold_left g l b).
Proof.
  induction l as [|x l IH]; intros a b; simpl; [reflexivity|].
  rewrite <- g_assoc; apply IH.
Qed.

Lemma fold1_cons x l :
  Some (fold_left g l x)
  = Some (match l with [] => x | y :: l' => g x (fold_left g l' y) end).
Proof.
  destruct l as [|y l]; simpl; [reflexivity|].
  rewrite fold_left_g_shift; reflexivity.
Qed.

Lemma fold1_perm l1 l2 :
  Permutation l1 l2 ->
  match l1 with [] => None | x :: l => Some (fold_left g l x) end
  = match l2 with [] => None | x :: l => Some (fold_left g l x) end.
Proof.
  induction 1 as [| x l l' _ IH | x y l | l l' l'' _ IH1 _ IH2].
  - reflexivity.
  - rewrite (fold1_cons x l), (fold1_cons x l').
    destruct l as [|y l], l' as [|y' l']; try discriminate IH; [reflexivity|].
    injection IH as ->; reflexivity.
  - simpl; rewrite g_comm; reflexivity.
  - congruence.
Qed.
End FoldPerm.

Lemma map_result_perm {A B} (f : A -> result B) l l' :
  Permutation l l' ->
  forall rows, map_result f l = Ok rows ->
  exists rows', map_result f l' = Ok rows' /\ Permutation rows rows'.
Proof.
  induction 1 as [| x l l' _ IH | x y l | l l' l'' _ IH1 _ IH2]; intros rows H.
  - exists rows; split; [exact H | reflexivity].
  - simpl in H; destruct (f x) as [b|] eqn:Hx; [|discriminate]; cbn [bind] in H.
    destruct (map_result f l) as [bs|]; [|discriminate]; cbn [bind] in H.
    injection H as <-.
    destruct (IH bs eq_refl) as [bs' [H' Hp]].
    exists (b :: bs'); split; [simpl; rewrite Hx, H'; reflexivity|].
    apply perm_skip; exact Hp.
  - simpl in H; destruct (f y) as [b|] eqn:Hy; [|discriminate]; cbn [bind] in H.
    destruct (f x) as [a|] eqn:Hx; [|discriminate]; cbn [bind] in H.
    destruct (map_result f l) as [bs|] eqn:Hl; [|discriminate]; cbn [bind] in H.
    injection H as <-.
    exists (a :: b :: bs); split; [simpl; rewrite Hx, Hy, Hl; reflexivity|].
    apply perm_swap.
  - destruct (IH1 rows H) as [r1 [H1 P1]].
    destruct (IH2 r1 H1) as [r2 [H2 P2]].
    exists r2; split; [exact H2 | eapply perm_trans; eassumption].
Qed.

Lemma nanmax_axis0_perm rows rows' :
  Permutation rows rows' -> nanmax_axis0 rows = nanmax_axis0 rows'.
Proof.
  intros Hp.
  pose proof (fold1_perm (zip_with nan_max2)
                (zip_with_comm _ nan_max2_comm)
                (zip_with_assoc _ nan_max2_assoc) _ _ Hp) as H.
  destruct rows as [|r rs], rows' as [|r' rs']; simpl in H |- *;
    try discriminate H; [reflexivity|].
  injection H as ->; reflexivity.
Qed.

Lemma map_result_perm_err {A B} (f : A -> result B) E l l' :
  (forall x e, f x = Err e -> e = E) -> Permutation l l' ->
  (exists ys ys', map_result f l = Ok ys /\ map_result f l' = Ok ys' /\ Permutation ys ys')
  \/ (map_result f l = Err E /\ map_result f l' = Err E).
Proof.
  intros HE Hp; destruct (map_result f l) as [ys|e] eqn:El.
  - left; destruct (map_result_perm f _ _ Hp ys El) as [ys' [El' Hy]].
    exists ys, ys'; auto.
  - right; destruct (map_result_err_elem f _ _ El) as [x [Hx Hfx]].
    rewrite (HE _ _ Hfx); split; [reflexivity|].
    apply map_result_uniform_err; [exact HE|].
    exists x; split; [apply (Permutation_in _ Hp); exact Hx | rewrite Hfx; reflexivity].
Qed.

Lemma row_at_err data k e : row_at data k = Err e -> e = IndexError.
Proof. unfold row_at; destruct (nth_error data k); intros H; [discriminate | injection H as <-; reflexivity]. Qed.

Lemma azimuth_rhi_data_perm azs sweeps sweeps' fields rng field target :
  Permutation sweeps sweeps' ->
  (exists rows rows',
     azimuth_rhi_data (mk_radar azs sweeps fields rng) field target = Ok rows /\
     azimuth_rhi_data (mk_radar azs sweeps' fields rng) field target = Ok rows' /\
     Permutation rows rows') \/
  (exists e,
     azimuth_rhi_data (mk_radar azs sweeps fields rng) field target = Err e /\
     azimuth_rhi_data (mk_radar azs sweeps' fields rng) field target = Err e).
Proof.
  intros Hp; unfold azimuth_rhi_data; cbn [radar_fields radar_sweeps radar_azimuths radar_ranges].
  destruct (assoc_lookup field fields) as [data|]; [|right; eauto].
  match goal with |- context [map_result ?f sweeps] =>
    assert (Hf : forall x e, f x = Err e -> e = ValueError);
    [ intros [s e] err; cbn beta iota zeta;
      destruct (argmin _) eqn:Ha; cbn [bind]; [discriminate|];
      intros H; injection H as <-; exact (argmin_err _ _ Ha)
    | destruct (map_result_perm_err f ValueError sweeps sweeps' Hf Hp)
        as [[p [p' [E [E' Hpp]]]] | [E E']]; rewrite E, E'; cbn [bind]; [|right; eauto] ]
  end.
  destruct (map_result_perm_err (row_at data) IndexError p p' (row_at_err data) Hpp)
    as [[rows [rows' [R [R' Hr]]]] | [R R']]; rewrite R, R'; cbn [bind]; [|right; eauto].
  rewrite <- (Permutation_length Hpp).
  destruct (antenna_vectors_edges (length rng) (length p)); cbn [bind]; [left | right; eauto].
  exists rows, rows'; auto.
Qed.

(** X: the composite profile does not depend on the order in which the
    volume lists its sweeps. *)
Theorem get_composite_field_sweep_order azs sweeps sweeps' fields rng field azimuth :
  Permutation sweeps sweeps' ->
  get_composite_field (mk_radar azs sweeps' fields rng) field azimuth
  = get_composite_field (mk_radar azs sweeps fields rng) field azimuth.
Proof.
  intros Hp; unfold get_composite_field.
  destruct (azimuth_rhi_data_perm azs sweeps sweeps' fields rng "reflectivity" azimuth Hp)
    as [[rows [rows' [E [E' Hr]]]] | [e [E E']]]; rewrite E, E'; cbn [bind]; [|reflexivity].
  rewrite (nanmax_axis0_perm (map (map mask_saturated) rows)
                             (map (map mask_saturated) rows'))
    by (apply Permutation_map; exact Hr).
  reflexivity.
Qed.

Lemma get_composite_field_sweep_order_witness :
  get_composite_field (mk_radar [230; 240] [(1, 2); (0, 1)]%nat
                         [("reflectivity"%string,
                           [[Some 10; None; Some 2000]; [Some 20; Some 5; None]])]
                         [0; 250; 500]) "reflectivity" 235
  = get_composite_field radar_b "reflectivity" 235.
Proof.
  apply get_composite_field_sweep_order; apply perm_swap.
Defined.

(** ** The hourly listing as partition listings *)

Lemma strftime_lit c s t :
  Ascii.eqb c "%" = false -> strftime (String c s) t = String c (strftime s t).
Proof.
  intros H; destruct c as [[] [] [] [] [] [] [] []]; try discriminate H; reflexivity.
Qed.

Lemma strftime_no_pct a b t :
  has_pct a = false -> strftime (a ++ b) t = (a ++ strftime b t)%string.
Proof.
  induction a as [|c a IH]; intros H; [reflexivity|].
  simpl in H; apply orb_false_iff in H as [Hc Ha].
  cbn [append]; rewrite strftime_lit by exact Hc; rewrite IH by exact Ha; reflexivity.
Qed.

Lemma strftime_dir_Y s t :
  strftime (String "%" (String "Y" s)) t = (zpad 4 (c_year (civil_of_ns t)) ++ strftime s t)%string.
Proof. reflexivity. Qed.

Lemma strftime_dir_m s t :
  strftime (String "%" (String "m" s)) t = (zpad 2 (c_month (civil_of_ns t)) ++ strftime s t)%string.
Proof. reflexivity. Qed.

Lemma strftime_dir_d s t :
  strftime (String "%" (String "d" s)) t = (zpad 2 (c_day (civil_of_ns t)) ++ strftime s t)%string.
Proof. reflexivity. Qed.

Lemma strftime_dir_H s t :
  strftime (String "%" (String "H" s)) t = (zpad 2 (c_hour (civil_of_ns t)) ++ strftime s t)%string.
Proof. reflexivity. Qed.

Lemma strftime_empty t : strftime "" t = ""%string.
Proof. reflexivity. Qed.

Lemma by_str_some_form store y m d h radar_id bucket :
  get_s3_list_by_str store y m d (Some h) radar_id bucket
  = Ok (s3_glob store ((bucket ++ "/" ++ y ++ "/" ++ m ++ "/" ++ d ++ "/" ++ radar_id
                        ++ "/" ++ radar_id ++ y ++ m ++ d ++ "_" ++ h) ++ "*"),
        bucket ++ "/" ++ y ++ "/" ++ m ++ "/" ++ d ++ "/" ++ radar_id
        ++ "/" ++ radar_id ++ y ++ m ++ d ++ "_" ++ h)%string.
Proof.
  unfold get_s3_list_by_str; cbn [py_format bind append].
  repeat (rewrite str_app_assoc || (cbn [append]; progress rewrite ?str_app_assoc)).
  rewrite ?str_app_nil_r; reflexivity.
Qed.

Lemma strftime_s3_template radar_id t :
  has_pct radar_id = false ->
  strftime ("noaa-nexrad-level2/%Y/%m/%d/" ++ radar_id ++ "/"
            ++ radar_id ++ "%Y%m%d_%H") t
  = ("noaa-nexrad-level2" ++ "/" ++ zpad 4 (c_year (civil_of_ns t)) ++ "/"
     ++ zpad 2 (c_month (civil_of_ns t)) ++ "/"
     ++ zpad 2 (c_day (civil_of_ns t)) ++ "/" ++ radar_id ++ "/"
     ++ radar_id ++ zpad 4 (c_year (civil_of_ns t))
     ++ zpad 2 (c_month (civil_of_ns t))
     ++ zpad 2 (c_day (civil_of_ns t)) ++ "_"
     ++ zpad 2 (c_hour (civil_of_ns t)))%string.
Proof.
  intros Hr; cbn [append].
  repeat first [ rewrite strftime_dir_Y | rewrite strftime_dir_m
               | rewrite strftime_dir_d | rewrite strftime_dir_H
               | rewrite strftime_no_pct by exact Hr
               | rewrite strftime_lit by reflexivity ].
  rewrite strftime_empty, str_app_nil_r; reflexivity.
Qed.

Lemma by_str_hour_query store radar_id t :
  has_pct radar_id = false ->
  get_s3_list_by_str store (zpad 4 (c_year (civil_of_ns t)))
    (zpad 2 (c_month (civil_of_ns t))) (zpad 2 (c_day (civil_of_ns t)))
    (Some (zpad 2 (c_hour (civil_of_ns t)))) radar_id "noaa-nexrad-level2"
  = Ok (s3_glob store
          (strftime ("noaa-nexrad-level2/%Y/%m/%d/" ++ radar_id ++ "/"
                     ++ radar_id ++ "%Y%m%d_%H") t ++ "*"),
        strftime ("noaa-nexrad-level2/%Y/%m/%d/" ++ radar_id ++ "/"
                  ++ radar_id ++ "%Y%m%d_%H") t)%string.
Proof.
  intros Hr; rewrite by_str_some_form, strftime_s3_template by exact Hr.
  reflexivity.
Qed.


Lemma Forall2_map_r {A B} (P : A -> B -> Prop) (h : A -> B) l :
  (forall x, In x l -> P x (h x)) -> Forall2 P l (map h l).
Proof.
  induction l as [|x l IH]; intros H; constructor.
  - apply H; left; reflexivity.
  - apply IH; intros y Hy; apply H; right; exact Hy.
Qed.

(** X: for a station name without ['%'], the key list of [get_s3_list]
    is the concatenation, over the hours of [pd.date_range(start, end,
    freq='H')], of the key lists [get_s3_list_by_str] returns for the
    hour's zero-padded year, month, day and hour (as [hhmm]) in the
    bucket "noaa-nexrad-level2". *)
Theorem get_s3_list_by_hour_partitions store start end_ radar_id bucket :
  has_pct radar_id = false ->
  exists queries per_hour,
    get_s3_list store start end_ radar_id bucket = Ok (queries, concat per_hour) /\
    Forall2 (fun t keys =>
               exists q,
                 get_s3_list_by_str store (zpad 4 (c_year (civil_of_ns t)))
                   (zpad 2 (c_month (civil_of_ns t))) (zpad 2 (c_day (civil_of_ns t)))
                   (Some (zpad 2 (c_hour (civil_of_ns t)))) radar_id
                   "noaa-nexrad-level2" = Ok (keys, q))
            (date_range_hourly start end_) per_hour.
Proof.
  intros Hr; unfold get_s3_list; rewrite py_format_S3_FMT; cbn [bind].
  rewrite fold_queries; cbn [app].
  eexists; exists (map (fun t => s3_glob store
                       (strftime ("noaa-nexrad-level2/%Y/%m/%d/" ++ radar_id ++ "/"
                                  ++ radar_id ++ "%Y%m%d_%H") t ++ "*")%string)
                  (date_range_hourly start end_)).
  split; [rewrite map_map; reflexivity|].
  apply Forall2_map_r; intros t _.
  eexists; apply by_str_hour_query; exact Hr.
Qed.

Lemma get_s3_list_by_hour_partitions_witness :
  exists queries per_hour,
    get_s3_list store_example 0 HOUR "KATX" "noaa-nexrad-level2"
    = Ok (queries, concat per_hour) /\
    Forall2 (fun t keys =>
               exists q,
                 get_s3_list_by_str store_example (zpad 4 (c_year (civil_of_ns t)))
                   (zpad 2 (c_month (civil_of_ns t))) (zpad 2 (c_day (civil_of_ns t)))
                   (Some (zpad 2 (c_hour (civil_of_ns t)))) "KATX"
                   "noaa-nexrad-level2" = Ok (keys, q))
            (date_range_hourly 0 HOUR) per_hour.
Proof.
  apply get_s3_list_by_hour_partitions; reflexivity.
Defined.

(** ** Narrowing a partition listing *)

Lemma strip_prefix_app (p r : string) : strip_prefix p (p ++ r) = Some r.
Proof.
  induction p as [|a p IH]; simpl; [reflexivity|].
  rewrite Ascii.eqb_refl; exact IH.
Qed.

Lemma glob_match_longer (p s k : string) :
  has_slash s = false -> glob_match (p ++ s) k = true -> glob_match p k = true.
Proof.
  unfold glob_match; intros Hs H.
  destruct (strip_prefix (p ++ s) k) as [r|] eqn:E; [|discriminate].
  apply strip_prefix_some in E; subst k.
  rewrite str_app_assoc, strip_prefix_app, has_slash_app, Hs; exact H.
Qed.

Lemma filter_filter_sub {A} (f g : A -> bool) l :
  (forall x, f x = true -> g x = true) -> filter f l = filter f (filter g l).
Proof.
  intros Hfg; induction l as [|x l IH]; simpl; [reflexivity|].
  destruct (f x) eqn:Hf.
  - rewrite (Hfg x Hf); simpl; rewrite Hf, IH; reflexivity.
  - destruct (g x); simpl; [rewrite Hf|]; exact IH.
Qed.

(** X: giving [get_s3_list_by_str] an hour-minute component without '/'
    narrows the listing: its keys are a sub-sequence (same order) of the
    keys listed for the whole day. *)
Theorem get_s3_list_by_str_hhmm_narrows store year month day h radar_id bucket
    keys_h q_h keys q :
  has_slash h = false ->
  get_s3_list_by_str store year month day (Some h) radar_id bucket = Ok (keys_h, q_h) ->
  get_s3_list_by_str store year month day None radar_id bucket = Ok (keys, q) ->
  exists f, keys_h = filter f keys.
Proof.
  intros Hh Hs Hn; unfold get_s3_list_by_str in Hs, Hn.
  destruct (py_format _ _) as [q0|]; [|discriminate]; cbn [bind] in Hs, Hn.
  injection Hs as <- _; injection Hn as <- _.
  unfold s3_glob; rewrite !strip_trailing_star_app.
  exists (glob_match (q0 ++ "_" ++ h)%string).
  apply filter_filter_sub; intros k; apply glob_match_longer.
  simpl; exact Hh.
Qed.

Lemma get_s3_list_by_str_hhmm_narrows_witness :
  exists f, [key_a1; key_mdm] = filter f store_example.
Proof.
  destruct (get_s3_list_by_str_hhmm_narrows store_example "2020" "06" "15" "0005"
              "KATX" "noaa-nexrad-level2" [key_a1; key_mdm]
              (day_prefix ++ "_0005")%string store_example day_prefix)
    as [f Hf]; [reflexivity | vm_compute; reflexivity | vm_compute; reflexivity |].
  exists f; exact Hf.
Defined.

(** ** A successful local run *)

Lemma fold_local_all fs radar_id field azimuth :
  forall keys st st',
    fold_result (local_step fs radar_id field azimuth) keys st = Ok st' ->
    (forall k, In k keys ->
       exists r t p rg, fs k = Some (Volume r) /\ key_time radar_id k = Ok t /\
                        get_composite_field r field azimuth = Ok (p, rg)) /\
    length (acc_times st') = (length (acc_times st) + length keys)%nat.
Proof.
  induction keys as [|k keys IH]; intros st st' H; simpl in H.
  - injection H as <-; split; [intros k []|simpl; lia].
  - unfold local_step, read_path in H.
    destruct (key_time radar_id k) as [t|] eqn:Ht; [|discriminate]; cbn [bind] in H.
    destruct (fs k) as [[r|]|] eqn:Hf; try discriminate; cbn [bind pyart_read] in H.
    destruct (get_composite_field r field azimuth) as [[p rg]|] eqn:Hc;
      [|discriminate]; cbn [bind fst snd] in H.
    destruct (IH _ _ H) as [Hall Hlen]; split.
    + intros k' [<-|Hk']; [exists r, t, p, rg; auto | apply Hall; exact Hk'].
    + rewrite Hlen; simpl; rewrite length_app; simpl; lia.
Qed.

Lemma build_dataset_times st ds :
  build_dataset st = Ok ds -> ds_time ds = acc_times st.
Proof.
  unfold build_dataset.
  destruct (acc_ranges st); [discriminate|]; cbn [bind].
  destruct (vstack (acc_rays st)); [|discriminate]; cbn [bind].
  destruct (_ && _); [|discriminate]; intros H; injection H as <-; reflexivity.
Qed.

(** X: [get_composite_from_list] never skips a key: when it returns a
    table, every key named a decodable volume whose name parsed and whose
    composite was extracted, and the table has one timestamp per key. *)
Theorem local_success_uses_every_key fs radar_id field azimuth keys ds :
  get_composite_from_list fs radar_id field azimuth keys = Ok ds ->
  (forall k, In k keys ->
     exists r t p rg, fs k = Some (Volume r) /\ key_time radar_id k = Ok t /\
                      get_composite_field r field azimuth = Ok (p, rg)) /\
  length (ds_time ds) = length keys.
Proof.
  unfold get_composite_from_list.
  destruct (fold_result _ keys accum0) as [st|] eqn:Hf; [|discriminate]; cbn [bind].
  intros Hb; destruct (fold_local_all _ _ _ _ _ _ _ Hf) as [Hall Hlen].
  split; [exact Hall|].
  rewrite (build_dataset_times _ _ Hb), Hlen; reflexivity.
Qed.

Lemma local_success_uses_every_key_witness :
  exists ds,
    get_composite_from_list fs_example "KATX" "reflectivity" 235 [key_a1; key_a3]
    = Ok ds /\
    ((forall k, In k [key_a1; key_a3] ->
       exists r t p rg, fs_example k = Some (Volume r) /\ key_time "KATX" k = Ok t /\
                        get_composite_field r "reflectivity" 235 = Ok (p, rg)) /\
     length (ds_time ds) = length [key_a1; key_a3]).
Proof.
  eexists; split; [vm_compute; reflexivity|].
  apply local_success_uses_every_key; vm_compute; reflexivity.
Defined.
